(** * Permit package workflow: status audit trail, checklists, collaboration hub

    A shallow embedding of the package workflow of the permit management
    system:

    - [PackagesService] (packages.service.ts): [create], [updateStatus],
      [updateChecklistItem], [createChecklistItems], [generatePackageNumber];
    - [PermitWebSocketGateway] (websocket.gateway.ts): [handleJoinPackage],
      [handleToggleChecklistItem], [handleUpdateStatus], [emitToPackage];
    - [getProgressStats] of the ChecklistEditor component.

    The Prisma client is modelled as a relational store of rows kept in
    insertion order. The server process is one [World]: the store, the clock,
    the socket.io rooms and the events emitted so far. Asynchronous code is
    read sequentially: every [await] is a step of the state-and-exception
    monad [M]. Calls to the logger are left out; they touch nothing that a
    handler or a client can observe. *)

From Stdlib Require Import ZArith Lia Bool.
From Stdlib Require Import Strings.String Strings.Ascii.
From Stdlib Require Import DecimalString DecimalNat.
From Stdlib Require PrimFloat SpecFloat FloatOps Uint63.
From stdpp Require Import base option list gmap sets strings sorting.

Local Open Scope string_scope.
Local Open Scope list_scope.

(** ** Data model *)

(** [PackageStatus]: the members that the client types declare, and the two
    more that the service names, [PackageStatus.UNDER_REVIEW] and
    [PackageStatus.COMPLETED]. *)
Inductive PackageStatus : Set :=
| DRAFT | IN_REVIEW | SUBMITTED | APPROVED | REJECTED | CLOSED
| UNDER_REVIEW | COMPLETED.

Inductive PermitType : Set :=
| RESIDENTIAL | MOBILE_HOME | MODULAR_HOME.

#[global] Instance PackageStatus_eq_dec : EqDecision PackageStatus.
Proof. solve_decision. Defined.

#[global] Instance PermitType_eq_dec : EqDecision PermitType.
Proof. solve_decision. Defined.

(** A JavaScript [Date]: the instant, and the calendar year that
    [getFullYear()] reads off it. *)
Record Date : Set := mkDate {
  getTime : Z;
  getFullYear : nat
}.

(** The scalar columns of [PermitPackage]. The nested [address] and
    [mobileHomeDetails] rows live in tables of their own that no operation
    below reads. *)
Record PermitPackage : Set := mkPermitPackage {
  pkg_id : string;
  pkg_packageNumber : string;
  pkg_permitType : PermitType;
  pkg_status : PackageStatus;
  pkg_description : option string;
  pkg_dueDate : option string;
  pkg_customerId : string;
  pkg_contractorId : option string;
  pkg_countyId : string;
  pkg_createdById : string;
  pkg_updatedById : option string
}.

Record StatusLog : Set := mkStatusLog {
  log_id : string;
  log_packageId : string;
  log_userId : string;
  log_status : PackageStatus;
  log_note : option string;
  log_createdAt : Date
}.

Record PackageChecklistItem : Set := mkPackageChecklistItem {
  item_id : string;
  item_packageId : string;
  item_label : string;
  item_category : string;
  item_required : bool;
  item_sort : Z;
  item_completed : bool;
  item_completedAt : option Date;
  item_notes : option string
}.

Record CountyChecklistTemplateItem : Set := mkCountyChecklistTemplateItem {
  tpl_id : string;
  tpl_countyId : string;
  tpl_label : string;
  tpl_category : string;
  tpl_permitType : option PermitType;
  tpl_required : bool;
  tpl_sort : Z
}.

(** [CreatePackageDto]; the validation pipe runs with [whitelist], so no
    other property reaches the service. *)
Record CreatePackageDto : Set := mkCreatePackageDto {
  dto_permitType : PermitType;
  dto_description : option string;
  dto_dueDate : option string;
  dto_customerId : string;
  dto_contractorId : option string;
  dto_countyId : string
}.

(** The tables, each in insertion order (oldest row first). *)
Record Db : Set := mkDb {
  permitPackages : list PermitPackage;
  statusLogs : list StatusLog;
  packageChecklistItems : list PackageChecklistItem;
  countyChecklistTemplateItems : list CountyChecklistTemplateItem
}.

(** ** Collaboration hub data *)

(** A connected client after [handleConnection] bound its identity. *)
Record AuthenticatedSocket : Set := mkSocket {
  socket_id : string;
  userId : string;
  userRole : string
}.

(** Server-to-client events with their payloads. *)
Inductive Event : Set :=
| error (message : string)
| joined_package (packageId : string)
| left_package (packageId : string)
| presence (user : string) (action : string) (timestamp : Date)
| checklist_updated (itemId : string) (completed : bool)
    (updatedBy : string) (timestamp : Date)
| status_updated (packageId : string) (status : string)
    (note : option string) (updatedBy : string) (timestamp : Date).

(** One event put on the wire for one socket. *)
Record Delivery : Set := mkDelivery {
  recipient : string;
  event : Event
}.

(** ** The server process *)

(** - [now] is what [new Date()] returns;
    - [faults] is the fate of the store writes to come, in the order they are
      issued: [true] means the store rejects that write (time-out, constraint
      violation); a write past the end of the list succeeds;
    - [uuid] and [issued] give the identifiers that [@default(uuid())] draws;
    - [rooms] maps a socket.io room name to the ids of the sockets in it;
    - [outbox] lists the deliveries made so far, oldest first. *)
Record World : Type := mkWorld {
  db : Db;
  now : Date;
  faults : list bool;
  uuid : nat -> string;
  issued : nat;
  rooms : gmap string (gset string);
  outbox : list Delivery
}.

Definition set_db (d : Db) (w : World) : World :=
  mkWorld d (now w) (faults w) (uuid w) (issued w) (rooms w) (outbox w).

Definition set_now (t : Date) (w : World) : World :=
  mkWorld (db w) t (faults w) (uuid w) (issued w) (rooms w) (outbox w).

Definition set_faults (fs : list bool) (w : World) : World :=
  mkWorld (db w) (now w) fs (uuid w) (issued w) (rooms w) (outbox w).

Definition set_issued (n : nat) (w : World) : World :=
  mkWorld (db w) (now w) (faults w) (uuid w) n (rooms w) (outbox w).

Definition set_rooms (r : gmap string (gset string)) (w : World) : World :=
  mkWorld (db w) (now w) (faults w) (uuid w) (issued w) r (outbox w).

Definition set_outbox (o : list Delivery) (w : World) : World :=
  mkWorld (db w) (now w) (faults w) (uuid w) (issued w) (rooms w) o.

(** ** Exceptions and the monad of handlers *)

Inductive Exception : Set :=
| NotFoundException (message : string)
| PrismaClientError (code : string).

Inductive Result (A : Type) : Type :=
| Ok (a : A)
| Throw (e : Exception).

Arguments Ok {A} a.
Arguments Throw {A} e.

Definition M (A : Type) : Type := World -> Result A * World.

Definition ret {A} (a : A) : M A := fun w => (Ok a, w).

Definition throw {A} (e : Exception) : M A := fun w => (Throw e, w).

Definition bind {A B} (m : M A) (k : A -> M B) : M B :=
  fun w =>
    match m w with
    | (Ok a, w') => k a w'
    | (Throw e, w') => (Throw e, w')
    end.

Notation "x <- m ;; k" := (bind m (fun x => k))
  (at level 100, m at next level, right associativity).

Notation "m ;;; k" := (bind m (fun _ => k))
  (at level 100, right associativity).

(** [try { body } catch (error) { handler }] *)
Definition try_catch {A} (body : M A) (handler : Exception -> M A) : M A :=
  fun w =>
    match body w with
    | (Ok a, w') => (Ok a, w')
    | (Throw e, w') => handler e w'
    end.

(** [Promise.all] over two store calls: both are issued, in order, and each
    one takes effect or not on its own; the result rejects with the first
    rejection. *)
Definition Promise_all2 {A B} (p : M A) (q : M B) : M (A * B) :=
  fun w =>
    let (ra, w1) := p w in
    let (rb, w2) := q w1 in
    match ra, rb with
    | Ok a, Ok b => (Ok (a, b), w2)
    | Throw e, _ => (Throw e, w2)
    | Ok _, Throw e => (Throw e, w2)
    end.

(** [Promise.all] over an array of store calls. *)
Fixpoint Promise_all {A} (ps : list (M A)) : M (list A) :=
  match ps with
  | [] => ret []
  | p :: ps' =>
      fun w =>
        let (ra, w1) := p w in
        let (rs, w2) := Promise_all ps' w1 in
        match ra, rs with
        | Ok a, Ok l => (Ok (a :: l), w2)
        | Throw e, _ => (Throw e, w2)
        | Ok _, Throw e => (Throw e, w2)
        end
  end.

Definition is_ok {A} (r : Result A) : bool :=
  match r with Ok _ => true | Throw _ => false end.

(** ** The Prisma client

    What the model takes from Prisma and the relational schema:
    [findUnique] and [findFirst] answer [null] when no row matches; [update]
    rejects when the row is missing (P2025); [create] draws the row id,
    rejects a duplicate primary key (P2002) and a dangling [packageId]
    (P2003); a data property left [undefined] keeps the stored value. Reads
    are always answered; each write first meets the fate [faults] holds for
    it. *)

Definition new_Date : M Date := fun w => (Ok (now w), w).

Definition default_uuid : M string :=
  fun w => (Ok (uuid w (issued w)), set_issued (S (issued w)) w).

Definition store_write : M unit :=
  fun w =>
    match faults w with
    | [] => (Ok tt, w)
    | false :: fs => (Ok tt, set_faults fs w)
    | true :: fs => (Throw (PrismaClientError "P1001"), set_faults fs w)
    end.

Definition read_db : M Db := fun w => (Ok (db w), w).

Definition write_db (d : Db) : M unit := fun w => (Ok tt, set_db d w).

Definition set_permitPackages (l : list PermitPackage) (d : Db) : Db :=
  mkDb l (statusLogs d) (packageChecklistItems d)
    (countyChecklistTemplateItems d).

Definition set_statusLogs (l : list StatusLog) (d : Db) : Db :=
  mkDb (permitPackages d) l (packageChecklistItems d)
    (countyChecklistTemplateItems d).

Definition set_packageChecklistItems
    (l : list PackageChecklistItem) (d : Db) : Db :=
  mkDb (permitPackages d) (statusLogs d) l (countyChecklistTemplateItems d).

Definition has_pkg_id (id : string) (p : PermitPackage) : bool :=
  String.eqb (pkg_id p) id.

Definition has_log_id (id : string) (l : StatusLog) : bool :=
  String.eqb (log_id l) id.

Definition has_item_id (id : string) (i : PackageChecklistItem) : bool :=
  String.eqb (item_id i) id.

Module permitPackage.

Definition findUnique (id : string) : M (option PermitPackage) :=
  d <- read_db ;;
  ret (List.find (has_pkg_id id) (permitPackages d)).

Definition findFirst (where_ : PermitPackage -> bool)
    : M (option PermitPackage) :=
  d <- read_db ;;
  ret (List.find where_ (permitPackages d)).

Definition count (where_ : PermitPackage -> bool) : M nat :=
  d <- read_db ;;
  ret (length (List.filter where_ (permitPackages d))).

Definition create (data : string -> PermitPackage) : M PermitPackage :=
  id <- default_uuid ;;
  store_write ;;;
  d <- read_db ;;
  if existsb (has_pkg_id id) (permitPackages d)
  then throw (PrismaClientError "P2002")
  else
    write_db (set_permitPackages (permitPackages d ++ [data id]) d) ;;;
    ret (data id).

Definition update (id : string) (data : PermitPackage -> PermitPackage)
    : M PermitPackage :=
  store_write ;;;
  d <- read_db ;;
  match List.find (has_pkg_id id) (permitPackages d) with
  | None => throw (PrismaClientError "P2025")
  | Some p =>
      write_db
        (set_permitPackages
           (map (fun q => if has_pkg_id id q then data q else q)
              (permitPackages d)) d) ;;;
      ret (data p)
  end.

End permitPackage.

Module statusLog.

Definition create (data : string -> Date -> StatusLog) : M StatusLog :=
  id <- default_uuid ;;
  createdAt <- new_Date ;;
  store_write ;;;
  d <- read_db ;;
  let row := data id createdAt in
  if existsb (has_log_id id) (statusLogs d)
  then throw (PrismaClientError "P2002")
  else if existsb (has_pkg_id (log_packageId row)) (permitPackages d)
  then write_db (set_statusLogs (statusLogs d ++ [row]) d) ;;; ret row
  else throw (PrismaClientError "P2003").

End statusLog.

Module packageChecklistItem.

Definition findUnique (id : string) : M (option PackageChecklistItem) :=
  d <- read_db ;;
  ret (List.find (has_item_id id) (packageChecklistItems d)).

Definition create (data : string -> PackageChecklistItem)
    : M PackageChecklistItem :=
  id <- default_uuid ;;
  store_write ;;;
  d <- read_db ;;
  let row := data id in
  if existsb (has_item_id id) (packageChecklistItems d)
  then throw (PrismaClientError "P2002")
  else if existsb (has_pkg_id (item_packageId row)) (permitPackages d)
  then
    write_db
      (set_packageChecklistItems (packageChecklistItems d ++ [row]) d) ;;;
    ret row
  else throw (PrismaClientError "P2003").

Definition update (id : string)
    (data : PackageChecklistItem -> PackageChecklistItem)
    : M PackageChecklistItem :=
  store_write ;;;
  d <- read_db ;;
  match List.find (has_item_id id) (packageChecklistItems d) with
  | None => throw (PrismaClientError "P2025")
  | Some i =>
      write_db
        (set_packageChecklistItems
           (map (fun j => if has_item_id id j then data j else j)
              (packageChecklistItems d)) d) ;;;
      ret (data i)
  end.

End packageChecklistItem.

(** ** Column defaults of the schema *)

(** Modelled from the spec: the Prisma schema file is missing; a package row
    created without a [status] starts in [DRAFT] ("Package creation
    implicitly performs one transition into DRAFT"). *)
Definition default_status : PackageStatus := DRAFT.

(** Modelled from the spec: the Prisma schema file is missing; a checklist
    item has "completed (bool, default false)". *)
Definition default_completed : bool := false.

(** ** JavaScript strings and numbers *)

(** [Number.prototype.toString()] on a natural number. *)
Definition toString (n : nat) : string :=
  NilEmpty.string_of_uint (Nat.to_uint n).

Fixpoint repeat_char (c : ascii) (n : nat) : string :=
  match n with
  | O => EmptyString
  | S n' => String c (repeat_char c n')
  end.

(** [String.prototype.padStart(targetLength, fill)] with a one-character
    fill. *)
Definition padStart (targetLength : nat) (fill : ascii) (s : string)
    : string :=
  repeat_char fill (targetLength - String.length s) +:+ s.

(** ** PackagesService *)

Module PackagesService.

Definition prefix_of_year (year : nat) : string :=
  "PKG-" +:+ toString year +:+ "-".

Definition generatePackageNumber : M string :=
  today <- new_Date ;;
  let year := getFullYear today in
  count <- permitPackage.count
             (fun p => String.prefix (prefix_of_year year)
                         (pkg_packageNumber p)) ;;
  ret (prefix_of_year year +:+ padStart 4 "0" (toString (count + 1))).

Definition create (createPackageDto : CreatePackageDto) (userId : string)
    : M PermitPackage :=
  packageNumber <- generatePackageNumber ;;
  packageData <-
    permitPackage.create
      (fun id =>
         mkPermitPackage id packageNumber
           (dto_permitType createPackageDto)
           default_status
           (dto_description createPackageDto)
           (dto_dueDate createPackageDto)
           (dto_customerId createPackageDto)
           (dto_contractorId createPackageDto)
           (dto_countyId createPackageDto)
           userId None) ;;
  statusLog.create
    (fun id createdAt =>
       mkStatusLog id (pkg_id packageData) userId DRAFT
         (Some "Package created") createdAt) ;;;
  ret packageData.

Definition set_status (status : PackageStatus) (userId : string)
    (p : PermitPackage) : PermitPackage :=
  mkPermitPackage (pkg_id p) (pkg_packageNumber p) (pkg_permitType p)
    status (pkg_description p) (pkg_dueDate p) (pkg_customerId p)
    (pkg_contractorId p) (pkg_countyId p) (pkg_createdById p)
    (Some userId).

Definition updateStatus (id : string) (status : PackageStatus)
    (userId : string) (note : option string)
    : M (PermitPackage * StatusLog) :=
  packageData <- permitPackage.findUnique id ;;
  match packageData with
  | None => throw (NotFoundException "Permit package not found")
  | Some _ =>
      Promise_all2
        (permitPackage.update id (set_status status userId))
        (statusLog.create
           (fun lid createdAt =>
              mkStatusLog lid id userId status note createdAt))
  end.

Definition set_completed (completed : bool) (completedAt : option Date)
    (notes : option string) (i : PackageChecklistItem)
    : PackageChecklistItem :=
  mkPackageChecklistItem (item_id i) (item_packageId i) (item_label i)
    (item_category i) (item_required i) (item_sort i)
    completed completedAt
    (match notes with Some n => Some n | None => item_notes i end).

Definition updateChecklistItem (itemId : string) (completed : bool)
    (notes : option string) : M PackageChecklistItem :=
  checklistItem <- packageChecklistItem.findUnique itemId ;;
  match checklistItem with
  | None => throw (NotFoundException "Checklist item not found")
  | Some _ =>
      today <- new_Date ;;
      packageChecklistItem.update itemId
        (set_completed completed
           (if completed then Some today else None) notes)
  end.

Definition from_template (packageId : string)
    (item : CountyChecklistTemplateItem) (id : string)
    : PackageChecklistItem :=
  mkPackageChecklistItem id packageId (tpl_label item) (tpl_category item)
    (tpl_required item) (tpl_sort item) default_completed None None.

Definition createChecklistItems (packageId : string)
    (templateItems : list CountyChecklistTemplateItem)
    : M (list PackageChecklistItem) :=
  packageData <- permitPackage.findUnique packageId ;;
  match packageData with
  | None => throw (NotFoundException "Permit package not found")
  | Some _ =>
      Promise_all
        (map (fun item =>
                packageChecklistItem.create (from_template packageId item))
           templateItems)
  end.

End PackagesService.

(** ** socket.io primitives *)

Definition members (room : string) (w : World) : gset string :=
  default ∅ (rooms w !! room).

Definition deliver (ev : Event) (to : list string) : list Delivery :=
  map (fun sid => mkDelivery sid ev) to.

(** [client.emit(ev, payload)]: to the client alone. *)
Definition client_emit (client : AuthenticatedSocket) (ev : Event)
    : M unit :=
  fun w => (Ok tt, set_outbox (outbox w ++ [mkDelivery (socket_id client) ev]) w).

(** [client.join(room)] *)
Definition client_join (client : AuthenticatedSocket) (room : string)
    : M unit :=
  fun w =>
    (Ok tt,
     set_rooms (<[room := {[socket_id client]} ∪ members room w]> (rooms w)) w).

(** [client.leave(room)] *)
Definition client_leave (client : AuthenticatedSocket) (room : string)
    : M unit :=
  fun w =>
    (Ok tt,
     set_rooms (<[room := members room w ∖ {[socket_id client]}]> (rooms w)) w).

(** [client.to(room).emit(ev, payload)]: to the room, the sender left out. *)
Definition client_to_emit (client : AuthenticatedSocket) (room : string)
    (ev : Event) : M unit :=
  fun w =>
    (Ok tt,
     set_outbox
       (outbox w ++
        deliver ev (elements (members room w ∖ {[socket_id client]}))) w).

(** [server.to(room).emit(ev, payload)]: to every socket of the room. *)
Definition server_to_emit (room : string) (ev : Event) : M unit :=
  fun w =>
    (Ok tt, set_outbox (outbox w ++ deliver ev (elements (members room w))) w).

(** A status that arrives as a string is validated by Prisma against the
    [PackageStatus] enum of the schema. The schema is not among the sources,
    so the handler below takes that validation as its argument [accepts]:
    [Some s] for a string the enum has as member [s], [None] for a string
    that is refused. [PackageStatus_of_string] is the validation that takes
    the name of every member listed above. *)
Definition PackageStatus_of_string (s : string) : option PackageStatus :=
  if String.eqb s "DRAFT" then Some DRAFT
  else if String.eqb s "IN_REVIEW" then Some IN_REVIEW
  else if String.eqb s "SUBMITTED" then Some SUBMITTED
  else if String.eqb s "APPROVED" then Some APPROVED
  else if String.eqb s "REJECTED" then Some REJECTED
  else if String.eqb s "CLOSED" then Some CLOSED
  else if String.eqb s "UNDER_REVIEW" then Some UNDER_REVIEW
  else if String.eqb s "COMPLETED" then Some COMPLETED
  else None.

(** ** PermitWebSocketGateway *)

Module PermitWebSocketGateway.

Definition room_of (packageId : string) : string := "package-" +:+ packageId.

(** The [where] clause of [handleJoinPackage]. *)
Definition may_join (packageId user : string) (p : PermitPackage) : bool :=
  has_pkg_id packageId p
  && (String.eqb (pkg_createdById p) user
      || match pkg_updatedById p with
         | Some u => String.eqb u user
         | None => false
         end).

Definition handleJoinPackage (packageId : string)
    (client : AuthenticatedSocket) : M unit :=
  try_catch
    (packageExists <-
       permitPackage.findFirst (may_join packageId (userId client)) ;;
     match packageExists with
     | None => client_emit client (error "Access denied to this package")
     | Some _ =>
         client_join client (room_of packageId) ;;;
         client_emit client (joined_package packageId) ;;;
         today <- new_Date ;;
         client_to_emit client (room_of packageId)
           (presence (userId client) "joined" today)
     end)
    (fun _ => client_emit client (error "Failed to join package")).

Definition handleLeavePackage (packageId : string)
    (client : AuthenticatedSocket) : M unit :=
  client_leave client (room_of packageId) ;;;
  client_emit client (left_package packageId) ;;;
  today <- new_Date ;;
  client_to_emit client (room_of packageId)
    (presence (userId client) "left" today).

Definition handleToggleChecklistItem (packageId itemId : string)
    (completed : bool) (client : AuthenticatedSocket) : M unit :=
  try_catch
    (today <- new_Date ;;
     packageChecklistItem.update itemId
       (PackagesService.set_completed completed
          (if completed then Some today else None) None) ;;;
     stamp <- new_Date ;;
     server_to_emit (room_of packageId)
       (checklist_updated itemId completed (userId client) stamp))
    (fun _ => client_emit client (error "Failed to update checklist item")).

Definition handleUpdateStatus (accepts : string -> option PackageStatus)
    (packageId status : string) (note : option string)
    (client : AuthenticatedSocket) : M unit :=
  try_catch
    (match accepts status with
     | None => throw (PrismaClientError "validation")
     | Some s =>
         permitPackage.update packageId
           (PackagesService.set_status s (userId client)) ;;;
         statusLog.create
           (fun lid createdAt =>
              mkStatusLog lid packageId (userId client) s note createdAt) ;;;
         stamp <- new_Date ;;
         server_to_emit (room_of packageId)
           (status_updated packageId status note (userId client) stamp)
     end)
    (fun _ => client_emit client (error "Failed to update status")).

Definition emitToPackage (packageId : string) (ev : Event) : M unit :=
  server_to_emit (room_of packageId) ev.

End PermitWebSocketGateway.

(** ** ChecklistEditor: progress statistics *)

Module ChecklistEditor.

(** A JavaScript number holding a count: the double of that value (array
    lengths stay far below 2^53, where the conversion is exact). *)
Definition Number_of_nat (n : nat) : PrimFloat.float :=
  PrimFloat.of_uint63 (Uint63.of_Z (Z.of_nat n)).

(** [Math.round]: the nearest integer, a tie going up. Computed exactly on
    the mantissa and exponent of the double. The guards of [getProgressStats]
    keep NaN and the infinities away from it. *)
Definition Math_round (x : PrimFloat.float) : Z :=
  match FloatOps.Prim2SF x with
  | SpecFloat.S754_finite s m e =>
      let n := if s then Z.neg m else Z.pos m in
      if (0 <=? e)%Z then (n * 2 ^ e)%Z
      else ((2 * n + 2 ^ (- e)) / 2 ^ (1 - e))%Z
  | _ => 0%Z
  end.

Record ProgressStats : Set := mkProgressStats {
  total : nat;
  completed : nat;
  required : nat;
  requiredCompleted : nat;
  percentage : Z;
  requiredPercentage : Z
}.

(** [Math.round((part / whole) * 100)] guarded by [whole > 0]. *)
Definition percent (part whole : nat) : Z :=
  if (0 <? whole)%nat
  then Math_round
         (PrimFloat.mul
            (PrimFloat.div (Number_of_nat part) (Number_of_nat whole))
            (Number_of_nat 100))
  else 0%Z.

Definition getProgressStats (items : list PackageChecklistItem)
    : ProgressStats :=
  let total := length items in
  let completed := length (List.filter item_completed items) in
  let required := length (List.filter item_required items) in
  let requiredCompleted :=
    length
      (List.filter (fun item => item_required item && item_completed item)
         items) in
  mkProgressStats total completed required requiredCompleted
    (percent completed total) (percent requiredCompleted required).

End ChecklistEditor.

(** ** Vocabulary of the statements *)

(** The fate of the [k]-th store write from now. *)
Definition fault_at (k : nat) (w : World) : bool := nth k (faults w) false.

(** The id the next [create] draws is not yet a key of the status log. *)
Definition fresh_log_id (w : World) : bool :=
  negb (existsb (has_log_id (uuid w (issued w))) (statusLogs (db w))).

Definition package_exists (id : string) (d : Db) : bool :=
  existsb (has_pkg_id id) (permitPackages d).

(** The status of package [id], when it is stored. *)
Definition status_of (id : string) (d : Db) : option PackageStatus :=
  option_map pkg_status (List.find (has_pkg_id id) (permitPackages d)).

(** The audit trail of package [id], oldest entry first. *)
Definition logs_of (id : string) (d : Db) : list StatusLog :=
  List.filter (fun l => String.eqb (log_packageId l) id) (statusLogs d).

(** The checklist of package [id]. *)
Definition checklist_of (id : string) (d : Db) : list PackageChecklistItem :=
  List.filter (fun i => String.eqb (item_packageId i) id)
    (packageChecklistItems d).

(** The audit entry that [updateStatus] writes in world [w]. *)
Definition status_entry (id : string) (st : PackageStatus) (u : string)
    (n : option string) (w : World) : StatusLog :=
  mkStatusLog (uuid w (issued w)) id u st n (now w).

(** Referential integrity of [StatusLog.packageId]. *)
Definition fk_ok (d : Db) : Prop :=
  Forall (fun l => package_exists (log_packageId l) d = true) (statusLogs d).

(** One [updateStatus] request, and the time at which it is served. *)
Record StatusCall : Set := mkStatusCall {
  call_at : Date;
  call_id : string;
  call_status : PackageStatus;
  call_userId : string;
  call_note : option string
}.

(** Serve the requests one after the other; the flag tells whether every one
    of them succeeded. *)
Fixpoint serve_updateStatus (calls : list StatusCall) (w : World)
    : bool * World :=
  match calls with
  | [] => (true, w)
  | c :: calls' =>
      match PackagesService.updateStatus (call_id c) (call_status c)
              (call_userId c) (call_note c) (set_now (call_at c) w) with
      | (Ok _, w') => serve_updateStatus calls' w'
      | (Throw _, w') => (false, w')
      end
  end.

(** The number of requests that address package [id]. *)
Definition transitions_on (id : string) (calls : list StatusCall) : nat :=
  length (List.filter (fun c => String.eqb (call_id c) id) calls).

(** One [create] request, and the time at which it is served. *)
Record CreateCall : Set := mkCreateCall {
  create_at : Date;
  create_dto : CreatePackageDto;
  create_userId : string
}.

(** Serve [create] requests one after the other, collecting the package
    numbers handed out; [None] when one of them fails. *)
Fixpoint serve_create (calls : list CreateCall) (w : World)
    : option (list string) * World :=
  match calls with
  | [] => (Some [], w)
  | c :: calls' =>
      match PackagesService.create (create_dto c) (create_userId c)
              (set_now (create_at c) w) with
      | (Ok p, w') =>
          match serve_create calls' w' with
          | (Some ns, w'') => (Some (pkg_packageNumber p :: ns), w'')
          | (None, w'') => (None, w'')
          end
      | (Throw _, w') => (None, w')
      end
  end.

(** The packages already numbered for [year]. *)
Definition numbered_in (year : nat) (d : Db) : nat :=
  length
    (List.filter
       (fun p => String.prefix (PackagesService.prefix_of_year year)
                   (pkg_packageNumber p))
       (permitPackages d)).

(** The package number with sequence number [n] of [year]. *)
Definition package_number (year n : nat) : string :=
  PackagesService.prefix_of_year year +:+ padStart 4 "0" (toString n).

(** The template rows that apply to a package of county [county] and permit
    type [permitType], as the design document selects them: the county's
    rows whose permit type is unset or the package's. *)
Definition applicable_templates (county : string) (permitType : PermitType)
    (d : Db) : list CountyChecklistTemplateItem :=
  List.filter
    (fun t =>
       String.eqb (tpl_countyId t) county
       && match tpl_permitType t with
          | None => true
          | Some pt => bool_decide (pt = permitType)
          end)
    (countyChecklistTemplateItems d).

(** [round(100 * part / whole)] on exact rationals, a tie going up. *)
Definition round_percent (part whole : nat) : Z :=
  ((2 * (100 * Z.of_nat part) + Z.of_nat whole) / (2 * Z.of_nat whole))%Z.

(** The deliveries made since [w]. *)
Definition emitted_since (w w' : World) : list Delivery :=
  drop (length (outbox w)) (outbox w').

Definition is_broadcast (ev : Event) : bool :=
  match ev with
  | checklist_updated _ _ _ _ | status_updated _ _ _ _ _ => true
  | _ => false
  end.


(** One checklist toggle request: when it is served, the new value, the
    notes sent along. *)
Record ToggleCall : Set := mkToggleCall {
  toggle_at : Date;
  toggle_completed : bool;
  toggle_notes : option string
}.

(** Serve toggle requests for one item one after the other; the flag tells
    whether every one of them succeeded. *)
Fixpoint serve_toggle (itemId : string) (calls : list ToggleCall) (w : World)
    : bool * World :=
  match calls with
  | [] => (true, w)
  | c :: calls' =>
      match PackagesService.updateChecklistItem itemId (toggle_completed c)
              (toggle_notes c) (set_now (toggle_at c) w) with
      | (Ok _, w') => serve_toggle itemId calls' w'
      | (Throw _, w') => (false, w')
      end
  end.

(** Whether the store write of a toggle of [itemId] goes through in [w]. *)
Definition toggle_persists (itemId : string) (w : World) : bool :=
  negb (fault_at 0 w)
  && existsb (has_item_id itemId) (packageChecklistItems (db w)).

(** Whether both store writes of a status update of [packageId] go through
    in [w], [accepts] being the validation of the status string. *)
Definition status_persists (accepts : string -> option PackageStatus)
    (packageId status : string) (w : World) : bool :=
  match accepts status with
  | None => false
  | Some _ =>
      (negb (fault_at 0 w) && package_exists packageId (db w))
      && (negb (fault_at 1 w) && fresh_log_id w)
  end.

(** Whether a room broadcast is among the deliveries. *)
Definition has_broadcast (ds : list Delivery) : bool :=
  existsb (fun d => is_broadcast (event d)) ds.

(** ** Example worlds *)

Definition example_uuid (n : nat) : string := "id-" +:+ toString n.

Definition example_date : Date := mkDate 1718000000000 2024.

Definition empty_db : Db := mkDb [] [] [] [].

(** A freshly started server with an empty store. *)
Definition example_world : World :=
  mkWorld empty_db example_date [] example_uuid 0 ∅ [].

Definition example_dto : CreatePackageDto :=
  mkCreatePackageDto MOBILE_HOME (Some "New mobile home") None
    "customer-1" None "miami-dade".

(** The server after alice created the first package, ["id-0"]. *)
Definition world_after_create : World :=
  snd (PackagesService.create example_dto "alice" example_world).

(** Two transitions of package ["id-0"], served one hour apart. *)
Definition example_calls : list StatusCall :=
  [ mkStatusCall (mkDate 1718003600000 2024) "id-0" IN_REVIEW "bob"
      (Some "sent to reviewer");
    mkStatusCall (mkDate 1718007200000 2024) "id-0" APPROVED "alice" None ].

(** A store holding three template rows of county ["miami-dade"]: one for
    every permit type, one for mobile homes, one for residential permits. *)
Definition example_templates : list CountyChecklistTemplateItem :=
  [ mkCountyChecklistTemplateItem "tpl-1" "miami-dade" "Site plan"
      "Plans" None true 1;
    mkCountyChecklistTemplateItem "tpl-2" "miami-dade" "HUD label photo"
      "Mobile home" (Some MOBILE_HOME) true 2;
    mkCountyChecklistTemplateItem "tpl-3" "miami-dade" "Energy calculations"
      "Plans" (Some RESIDENTIAL) false 3 ].

Definition world_with_templates : World :=
  set_db (mkDb [] [] [] example_templates) example_world.

(** The server after the three template rows were cloned into package
    ["id-0"]: its checklist items are ["id-2"], ["id-3"] and ["id-4"]. *)
Definition world_with_checklist : World :=
  snd (PackagesService.createChecklistItems "id-0" example_templates
         world_after_create).

(** Toggle true, then false, then true, one minute apart. *)
Definition example_toggles : list ToggleCall :=
  [ mkToggleCall (mkDate 1718000060000 2024) true None;
    mkToggleCall (mkDate 1718000120000 2024) false None;
    mkToggleCall (mkDate 1718000180000 2024) true None ].

(** Three packages requested in 2024. *)
Definition example_creates : list CreateCall :=
  [ mkCreateCall (mkDate 1718000000000 2024) example_dto "alice";
    mkCreateCall (mkDate 1718100000000 2024) example_dto "bob";
    mkCreateCall (mkDate 1718200000000 2024) example_dto "alice" ].

(** Bob's connection. *)
Definition bob_socket : AuthenticatedSocket := mkSocket "socket-bob" "bob" "USER".

(** Carol's connection; carol neither created nor updated any package. *)
Definition carol_socket : AuthenticatedSocket :=
  mkSocket "socket-carol" "carol" "USER".

(** Bob moves package ["id-0"] to IN_REVIEW over REST, which makes him its
    updater, and joins its room; then alice moves it to SUBMITTED, which
    makes her the updater. *)
Definition world_bob_joined : World :=
  snd (PermitWebSocketGateway.handleJoinPackage "id-0" bob_socket
         (snd (PackagesService.updateStatus "id-0" IN_REVIEW "bob" None
                 world_after_create))).

Definition world_bob_stale : World :=
  snd (PackagesService.updateStatus "id-0" SUBMITTED "alice" None
         world_bob_joined).

(** The server with bob in the room of package ["id-0"] and the three
    template rows cloned into its checklist as items ["id-3"], ["id-4"] and
    ["id-5"]. *)
Definition world_collab : World :=
  snd (PackagesService.createChecklistItems "id-0" example_templates
         world_bob_joined).

Definition example_item (required completed : bool) : PackageChecklistItem :=
  mkPackageChecklistItem "item" "id-0" "Site plan" "Plans" required 0
    completed (if completed then Some example_date else None) None.

(** Forty required items, twenty-three of them completed. *)
Definition checklist_23_of_40 : list PackageChecklistItem :=
  replicate 23 (example_item true true)
  ++ replicate 17 (example_item true false).

(** ** The connection registry of the gateway *)

(** What [jwtService.verify] reads off a valid token. *)
Record JwtPayload : Set := mkJwtPayload {
  jwt_sub : string;
  jwt_role : string;
  jwt_email : string
}.

(** The three places of the handshake where [handleConnection] looks for a
    token; [None] is [undefined]. *)
Record Handshake : Set := mkHandshake {
  auth_token : option string;
  auth_authorization : option string;
  headers_authorization : option string
}.

(** A socket that has just connected. *)
Record Socket : Set := mkRawSocket {
  raw_id : string;
  handshake : Handshake
}.

(** JavaScript truthiness of a string that may be [undefined]. *)
Definition truthy (s : option string) : bool :=
  match s with
  | Some (String _ _) => true
  | _ => false
  end.

(** [a || b] *)
Definition js_or (a b : option string) : option string :=
  if truthy a then a else b.

(** [s.startsWith(p)] *)
Fixpoint starts_with (p s : string) : bool :=
  match p, s with
  | EmptyString, _ => true
  | String a p', String b s' => Ascii.eqb a b && starts_with p' s'
  | String _ _, EmptyString => false
  end.

Fixpoint string_drop (n : nat) (s : string) : string :=
  match n, s with
  | O, _ => s
  | S n', String _ s' => string_drop n' s'
  | S _, EmptyString => EmptyString
  end.

(** [s.replace(pattern, replacement)] with a string pattern: the first
    occurrence is replaced. *)
Fixpoint replace_first (pattern replacement s : string) {struct s} : string :=
  if starts_with pattern s
  then replacement +:+ string_drop (String.length pattern) s
  else match s with
       | EmptyString => EmptyString
       | String c s' => String c (replace_first pattern replacement s')
       end.

Fixpoint has_char (c : ascii) (s : string) : bool :=
  match s with
  | EmptyString => false
  | String a s' => Ascii.eqb a c || has_char c s'
  end.

Module GatewayRegistry.

(** [handleConnection]: [verify] stands for the injected [JwtService], [None]
    for its exception. The result is the client with its identity bound, or
    [None] when the gateway disconnects it, and the [connectedUsers] map. *)
Definition handleConnection (verify : string -> option JwtPayload)
    (client : Socket) (connectedUsers : gmap string string)
    : option AuthenticatedSocket * gmap string string :=
  let token :=
    js_or (auth_token (handshake client))
      (js_or (auth_authorization (handshake client))
         (headers_authorization (handshake client))) in
  if negb (truthy token) then (None, connectedUsers)
  else
    let cleanToken := replace_first "Bearer " "" (default "" token) in
    match verify cleanToken with
    | Some payload =>
        (Some (mkSocket (raw_id client) (jwt_sub payload) (jwt_role payload)),
         <[jwt_sub payload := raw_id client]> connectedUsers)
    | None => (None, connectedUsers)
    end.

Definition handleDisconnect (client : AuthenticatedSocket)
    (connectedUsers : gmap string string) : gmap string string :=
  if truthy (Some (userId client))
  then delete (userId client) connectedUsers
  else connectedUsers.

(** [emitToUser]: [server.to(socketId)] addresses the room that bears the
    socket's id. *)
Definition emitToUser (connectedUsers : gmap string string)
    (user : string) (ev : Event) : M unit :=
  if truthy (connectedUsers !! user)
  then server_to_emit (default "" (connectedUsers !! user)) ev
  else ret tt.

End GatewayRegistry.

(** ** Reading a checklist *)

Module PackagesQueries.

(** [orderBy: { sort: 'asc' }] *)
Definition sort_le (i j : PackageChecklistItem) : Prop :=
  (item_sort i <= item_sort j)%Z.

#[global] Instance sort_le_dec (i j : PackageChecklistItem)
  : Decision (sort_le i j).
Proof. unfold sort_le. apply _. Defined.

(** [getChecklistItems]: the package is read together with its checklist
    items in ascending [sort]. Rows of equal [sort] come in the order the
    store happens to give; the model takes insertion order. *)
Definition getChecklistItems (packageId : string)
    : M (list PackageChecklistItem) :=
  packageData <- permitPackage.findUnique packageId ;;
  match packageData with
  | None => throw (NotFoundException "Permit package not found")
  | Some p =>
      d <- read_db ;;
      ret (merge_sort sort_le (checklist_of (pkg_id p) d))
  end.

End PackagesQueries.

(** ** ChecklistEditor: grouping *)

Module ChecklistGroups.

(** The property names every plain object inherits from [Object.prototype].
    Read through [groups[category]] they are truthy and have no [push]. *)
Definition Object_prototype_keys : list string :=
  [ "constructor"; "__defineGetter__"; "__defineSetter__"; "hasOwnProperty";
    "__lookupGetter__"; "__lookupSetter__"; "isPrototypeOf";
    "propertyIsEnumerable"; "toString"; "valueOf"; "__proto__";
    "toLocaleString" ].

(** [item.category || 'Other'] *)
Definition category_key (item : PackageChecklistItem) : string :=
  match item_category item with
  | EmptyString => "Other"
  | c => c
  end.

(** One step of the [reduce]; [None] is the TypeError of calling [push] on
    an inherited property. *)
Definition group_step
    (groups : option (gmap string (list PackageChecklistItem)))
    (item : PackageChecklistItem)
    : option (gmap string (list PackageChecklistItem)) :=
  match groups with
  | None => None
  | Some g =>
      let category := category_key item in
      match g !! category with
      | Some l => Some (<[category := l ++ [item]]> g)
      | None =>
          if bool_decide (category ∈ Object_prototype_keys) then None
          else Some (<[category := [item]]> g)
      end
  end.

Definition groupByCategory (items : list PackageChecklistItem)
    : option (gmap string (list PackageChecklistItem)) :=
  foldl group_step (Some ∅) items.

End ChecklistGroups.

(** ** More vocabulary *)

(** The rows of [l] whose write is not rejected, [fs] giving the fate of the
    writes in order. *)
Fixpoint surviving {A} (fs : list bool) (l : list A) {struct l} : list A :=
  match l with
  | [] => []
  | a :: l' =>
      match fs with
      | [] => a :: l'
      | true :: fs' => surviving fs' l'
      | false :: fs' => a :: surviving fs' l'
      end
  end.

(** The package numbers stored for [year], in insertion order. *)
Definition numbers_in (year : nat) (d : Db) : list string :=
  map pkg_packageNumber
    (List.filter
       (fun p => String.prefix (PackagesService.prefix_of_year year)
                   (pkg_packageNumber p))
       (permitPackages d)).

(** The numbers stored for [year] are 1, 2, ... in the order of creation. *)
Definition densely_numbered (year : nat) (d : Db) : Prop :=
  numbers_in year d
  = map (package_number year) (seq 1 (numbered_in year d)).

(** Two sockets of alice, and a verifier that knows her two tokens. *)
Definition example_verify (token : string) : option JwtPayload :=
  if String.eqb token "token-alice-1" || String.eqb token "token-alice-2"
  then Some (mkJwtPayload "alice" "USER" "alice@example.com")
  else None.

Definition alice_first : Socket :=
  mkRawSocket "socket-a1" (mkHandshake (Some "Bearer token-alice-1") None None).

Definition alice_second : Socket :=
  mkRawSocket "socket-a2" (mkHandshake None None (Some "token-alice-2")).

(** Alice's connection. *)
Definition alice_socket : AuthenticatedSocket :=
  mkSocket "socket-alice" "alice" "USER".

(** A server on which alice's second socket sits in the room of its own
    id. *)
Definition world_alice_connected : World :=
  set_rooms {["socket-a2" := {["socket-a2"]}]} example_world.

(** Unfold the steps of the monad and of the store down to functions on
    worlds. *)
Ltac unfold_store :=
  unfold bind, store_write, read_db, write_db, ret, throw, default_uuid,
    new_Date.

(** * Properties *)

(** ** Rows and tables *)

Lemma find_has_pkg_id (id : string) (l : list PermitPackage) (p : PermitPackage) :
  List.find (has_pkg_id id) l = Some p -> pkg_id p = id.
Proof.
  intros H. apply find_some in H as [_ H].
  unfold has_pkg_id in H. now apply String.eqb_eq in H.
Qed.

Lemma existsb_find {A} (f : A -> bool) (l : list A) :
  existsb f l = match List.find f l with Some _ => true | None => false end.
Proof.
  induction l as [|a l IH]; simpl; [reflexivity|].
  destruct (f a); simpl; [reflexivity|exact IH].
Qed.

Lemma existsb_set_status (id id' : string) (st : PackageStatus) (u : string)
    (l : list PermitPackage) :
  existsb (has_pkg_id id')
    (map (fun q => if has_pkg_id id q then PackagesService.set_status st u q else q) l)
  = existsb (has_pkg_id id') l.
Proof.
  induction l as [|a l IH]; simpl; [reflexivity|].
  rewrite IH. f_equal. destruct (has_pkg_id id a); reflexivity.
Qed.

Lemma find_set_status_same (id : string) (st : PackageStatus) (u : string)
    (l : list PermitPackage) :
  List.find (has_pkg_id id)
    (map (fun q => if has_pkg_id id q then PackagesService.set_status st u q else q) l)
  = option_map (PackagesService.set_status st u) (List.find (has_pkg_id id) l).
Proof.
  induction l as [|a l IH]; simpl; [reflexivity|].
  destruct (has_pkg_id id a) eqn:E; simpl.
  - unfold has_pkg_id in *. simpl. rewrite E. reflexivity.
  - rewrite E. exact IH.
Qed.

Lemma find_set_status_other (id id' : string) (st : PackageStatus) (u : string)
    (l : list PermitPackage) :
  id' <> id ->
  List.find (has_pkg_id id')
    (map (fun q => if has_pkg_id id q then PackagesService.set_status st u q else q) l)
  = List.find (has_pkg_id id') l.
Proof.
  intros Hne. induction l as [|a l IH]; simpl; [reflexivity|].
  destruct (has_pkg_id id a) eqn:E; simpl.
  - unfold has_pkg_id in *. simpl. apply String.eqb_eq in E.
    destruct (String.eqb_spec (pkg_id a) id') as [E'|E']; [congruence|exact IH].
  - rewrite IH. reflexivity.
Qed.

(** ** updateStatus *)

Lemma updateStatus_missing (id : string) (st : PackageStatus) (u : string)
    (n : option string) (w : World) :
  package_exists id (db w) = false ->
  PackagesService.updateStatus id st u n w
  = (Throw (NotFoundException "Permit package not found"), w).
Proof.
  unfold package_exists. rewrite existsb_find.
  unfold PackagesService.updateStatus, permitPackage.findUnique, bind, read_db, ret, throw.
  destruct (List.find _ _); [discriminate|reflexivity].
Qed.

Lemma updateStatus_effect (id : string) (st : PackageStatus) (u : string)
    (n : option string) (w : World) :
  package_exists id (db w) = true ->
  forall r w', PackagesService.updateStatus id st u n w = (r, w') ->
  is_ok r = negb (fault_at 0 w) && (negb (fault_at 1 w) && fresh_log_id w)
  /\ permitPackages (db w')
     = (if fault_at 0 w then permitPackages (db w)
        else map (fun q => if has_pkg_id id q
                           then PackagesService.set_status st u q else q)
               (permitPackages (db w)))
  /\ statusLogs (db w')
     = (if negb (fault_at 1 w) && fresh_log_id w
        then statusLogs (db w) ++ [status_entry id st u n w]
        else statusLogs (db w))
  /\ packageChecklistItems (db w') = packageChecklistItems (db w)
  /\ countyChecklistTemplateItems (db w') = countyChecklistTemplateItems (db w)
  /\ now w' = now w /\ rooms w' = rooms w /\ outbox w' = outbox w
  /\ uuid w' = uuid w.
Proof.
  intros Hex r w'. unfold package_exists in Hex.
  pose proof Hex as Hex'. rewrite existsb_find in Hex'.
  unfold PackagesService.updateStatus, permitPackage.findUnique, bind at 1.
  unfold read_db, ret.
  destruct (List.find (has_pkg_id id) (permitPackages (db w))) as [p|] eqn:Hf;
    [clear Hex'|discriminate].
  unfold Promise_all2, permitPackage.update, statusLog.create, fault_at, fresh_log_id.
  unfold_store.
  destruct w as [d t fs g k rm ob]; simpl in *.
  destruct fs as [|[] [|[] fs]];
    repeat (progress (simpl; rewrite ?Hf, ?existsb_set_status, ?Hex));
    destruct (existsb (has_log_id (g k)) (statusLogs d));
    repeat (progress (simpl; rewrite ?Hf, ?existsb_set_status, ?Hex));
    intros H; injection H as <- <-; simpl; repeat split; reflexivity.
Qed.

Lemma status_of_set_status (id : string) (st : PackageStatus) (u : string)
    (d : Db) :
  package_exists id d = true ->
  option_map pkg_status
    (List.find (has_pkg_id id)
       (map (fun q => if has_pkg_id id q
                      then PackagesService.set_status st u q else q)
          (permitPackages d)))
  = Some st.
Proof.
  unfold package_exists. rewrite existsb_find, find_set_status_same.
  destruct (List.find _ _); [reflexivity|discriminate].
Qed.

(** C4: [updateStatus] on an id that is not stored signals NotFound and
    leaves the whole server state as it was; on a stored package the call
    succeeds exactly when its two store writes go through, whatever the
    current and the requested status are, and the requested status is then
    the stored one. *)
Theorem updateStatus_not_found_or_any_status (id : string)
    (st : PackageStatus) (u : string) (n : option string) (w : World) :
  let (r, w') := PackagesService.updateStatus id st u n w in
  if package_exists id (db w)
  then is_ok r = negb (fault_at 0 w) && (negb (fault_at 1 w) && fresh_log_id w)
       /\ status_of id (db w')
          = (if fault_at 0 w then status_of id (db w) else Some st)
  else r = Throw (NotFoundException "Permit package not found") /\ w' = w.
Proof.
  destruct (PackagesService.updateStatus id st u n w) as [r w'] eqn:E.
  destruct (package_exists id (db w)) eqn:Hex.
  - destruct (updateStatus_effect id st u n w Hex r w' E) as (Hok & Hp & _).
    split; [exact Hok|]. unfold status_of. rewrite Hp.
    destruct (fault_at 0 w); [reflexivity|].
    now apply status_of_set_status.
  - rewrite (updateStatus_missing id st u n w Hex) in E.
    injection E as <- <-. split; reflexivity.
Qed.

Lemma updateStatus_not_found_or_any_status_witness :
  (let (r, w') :=
     PackagesService.updateStatus "id-0" APPROVED "bob" None world_after_create in
   is_ok r = true /\ status_of "id-0" (db w') = Some APPROVED)
  /\ (let (r, w') :=
        PackagesService.updateStatus "id-7" APPROVED "bob" None world_after_create in
      r = Throw (NotFoundException "Permit package not found")
      /\ w' = world_after_create).
Proof.
  split.
  - exact (updateStatus_not_found_or_any_status "id-0" APPROVED "bob" None
             world_after_create).
  - exact (updateStatus_not_found_or_any_status "id-7" APPROVED "bob" None
             world_after_create).
Defined.

Lemma logs_of_snoc (id : string) (d : Db) (l : StatusLog) :
  List.filter (fun e => String.eqb (log_packageId e) id) (statusLogs d ++ [l])
  = logs_of id d ++ (if String.eqb (log_packageId l) id then [l] else []).
Proof.
  unfold logs_of. rewrite List.filter_app. simpl.
  destruct (String.eqb (log_packageId l) id); reflexivity.
Qed.

(** C1, as amended: on a stored package, [updateStatus] issues the package
    update and the audit append as two store writes of their own; the call
    succeeds exactly when both go through, and then the package carries the
    new status and updater and the trail ends with the new entry; a write
    that goes through is kept when the other one is rejected. *)
Theorem updateStatus_writes_are_independent (id : string)
    (st : PackageStatus) (u : string) (n : option string) (w : World) :
  package_exists id (db w) = true ->
  let (r, w') := PackagesService.updateStatus id st u n w in
  let update_ok := negb (fault_at 0 w) in
  let log_ok := negb (fault_at 1 w) && fresh_log_id w in
  is_ok r = update_ok && log_ok
  /\ List.find (has_pkg_id id) (permitPackages (db w'))
     = (if update_ok
        then option_map (PackagesService.set_status st u)
               (List.find (has_pkg_id id) (permitPackages (db w)))
        else List.find (has_pkg_id id) (permitPackages (db w)))
  /\ logs_of id (db w')
     = (if log_ok then logs_of id (db w) ++ [status_entry id st u n w]
        else logs_of id (db w)).
Proof.
  intros Hex.
  destruct (PackagesService.updateStatus id st u n w) as [r w'] eqn:E.
  destruct (updateStatus_effect id st u n w Hex r w' E) as (Hok & Hp & Hl & _).
  split; [exact Hok|]. split.
  - rewrite Hp. destruct (fault_at 0 w); simpl; [reflexivity|].
    apply find_set_status_same.
  - unfold logs_of at 1. rewrite Hl.
    destruct (negb (fault_at 1 w) && fresh_log_id w); [|reflexivity].
    rewrite logs_of_snoc. simpl. rewrite String.eqb_refl. reflexivity.
Qed.

Lemma updateStatus_writes_are_independent_witness :
  package_exists "id-0" (db world_after_create) = true
  /\ (let (r, w') :=
        PackagesService.updateStatus "id-0" IN_REVIEW "bob"
          (Some "sent to reviewer") world_after_create in
      is_ok r = true
      /\ option_map pkg_status
           (List.find (has_pkg_id "id-0") (permitPackages (db w')))
         = Some IN_REVIEW
      /\ map log_status (logs_of "id-0" (db w')) = [DRAFT; IN_REVIEW]).
Proof.
  split; [reflexivity|].
  pose proof (updateStatus_writes_are_independent "id-0" IN_REVIEW "bob"
                (Some "sent to reviewer") world_after_create eq_refl) as H.
  destruct (PackagesService.updateStatus "id-0" IN_REVIEW "bob"
              (Some "sent to reviewer") world_after_create) as [r w'].
  destruct H as (H1 & H2 & H3).
  split; [exact H1|]. split.
  - rewrite H2. reflexivity.
  - rewrite H3. reflexivity.
Defined.

(** C1, the claim as stated fails: alice creates a package; the next
    [updateStatus] has its package update accepted and its audit append
    rejected by the store. The call fails, yet the package is now SUBMITTED
    while its trail still holds the creation entry alone. *)
Lemma updateStatus_status_change_without_audit_entry :
  let w := set_faults [false; true] world_after_create in
  let (r, w') := PackagesService.updateStatus "id-0" SUBMITTED "alice" None w in
  status_of "id-0" (db w) = Some DRAFT
  /\ r = Throw (PrismaClientError "P1001")
  /\ status_of "id-0" (db w') = Some SUBMITTED
  /\ map log_status (logs_of "id-0" (db w')) = [DRAFT].
Proof. vm_compute. repeat split; reflexivity. Qed.

(** ** create *)

Lemma existsb_snoc_self (id : string) (l : list PermitPackage) (p : PermitPackage) :
  pkg_id p = id -> existsb (has_pkg_id id) (l ++ [p]) = true.
Proof.
  intros <-. rewrite existsb_app. simpl. unfold has_pkg_id.
  rewrite String.eqb_refl. now rewrite orb_true_r.
Qed.

(** The row that [create] stores for the package. *)
Lemma create_Ok (dto : CreatePackageDto) (u : string) (w : World)
    (p : PermitPackage) (w' : World) :
  PackagesService.create dto u w = (Ok p, w') ->
  p = mkPermitPackage (uuid w (issued w))
        (package_number (getFullYear (now w))
           (numbered_in (getFullYear (now w)) (db w) + 1))
        (dto_permitType dto) DRAFT (dto_description dto) (dto_dueDate dto)
        (dto_customerId dto) (dto_contractorId dto) (dto_countyId dto) u None
  /\ package_exists (pkg_id p) (db w) = false
  /\ permitPackages (db w') = permitPackages (db w) ++ [p]
  /\ statusLogs (db w')
     = statusLogs (db w)
       ++ [mkStatusLog (uuid w (S (issued w))) (pkg_id p) u DRAFT
             (Some "Package created") (now w)]
  /\ packageChecklistItems (db w') = packageChecklistItems (db w)
  /\ countyChecklistTemplateItems (db w') = countyChecklistTemplateItems (db w)
  /\ now w' = now w /\ uuid w' = uuid w
  /\ rooms w' = rooms w /\ outbox w' = outbox w.
Proof.
  unfold PackagesService.create, PackagesService.generatePackageNumber.
  unfold permitPackage.count, permitPackage.create, statusLog.create.
  unfold package_exists, package_number, numbered_in.
  unfold_store.
  destruct w as [d t fs g k rm ob]; simpl.
  destruct (existsb (has_pkg_id (g k)) (permitPackages d)) eqn:Hpk.
  { destruct fs as [|[] fs]; simpl; rewrite ?Hpk; simpl; discriminate. }
  destruct fs as [|[] [|[] fs]]; simpl; rewrite ?Hpk; simpl;
    try discriminate;
    rewrite ?existsb_snoc_self by reflexivity;
    destruct (existsb (has_log_id (g (S k))) (statusLogs d)); simpl;
    try discriminate;
    intros H; injection H as <- <-; simpl; repeat split;
    first [reflexivity | exact Hpk].
Qed.

Lemma updateStatus_Ok (id : string) (st : PackageStatus) (u : string)
    (n : option string) (w : World) (r : PermitPackage * StatusLog)
    (w' : World) :
  PackagesService.updateStatus id st u n w = (Ok r, w') ->
  package_exists id (db w) = true
  /\ permitPackages (db w')
     = map (fun q => if has_pkg_id id q
                     then PackagesService.set_status st u q else q)
         (permitPackages (db w))
  /\ statusLogs (db w') = statusLogs (db w) ++ [status_entry id st u n w].
Proof.
  intros E. destruct (package_exists id (db w)) eqn:Hex.
  - destruct (updateStatus_effect id st u n w Hex _ _ E) as (Hok & Hp & Hl & _).
    simpl in Hok. symmetry in Hok.
    apply andb_true_iff in Hok as [H0 H1].
    apply negb_true_iff in H0. rewrite H0 in Hp. rewrite H1 in Hl.
    repeat split; assumption.
  - rewrite (updateStatus_missing id st u n w Hex) in E. discriminate.
Qed.

Lemma find_snoc_fresh {A} (f : A -> bool) (l : list A) (x : A) :
  existsb f l = false -> f x = true -> List.find f (l ++ [x]) = Some x.
Proof.
  induction l as [|a l IH]; simpl; intros H Hx.
  - now rewrite Hx.
  - apply orb_false_iff in H as [Ha Hl]. rewrite Ha. now apply IH.
Qed.

Lemma logs_of_nil_of_fk (id : string) (d : Db) :
  fk_ok d -> package_exists id d = false -> logs_of id d = [].
Proof.
  unfold fk_ok, logs_of. intros Hfk Hex.
  induction Hfk as [|l ls Hl _ IH]; simpl; [reflexivity|].
  destruct (String.eqb_spec (log_packageId l) id) as [E|E]; [|exact IH].
  rewrite E in Hl. congruence.
Qed.

Lemma serve_updateStatus_trail (id : string) (first : StatusLog) :
  forall (calls : list StatusCall) (w wn : World),
  serve_updateStatus calls w = (true, wn) ->
  head (logs_of id (db w)) = Some first ->
  option_map log_status (last (logs_of id (db w))) = status_of id (db w) ->
  length (logs_of id (db wn))
  = length (logs_of id (db w)) + transitions_on id calls
  /\ head (logs_of id (db wn)) = Some first
  /\ option_map log_status (last (logs_of id (db wn))) = status_of id (db wn).
Proof.
  induction calls as [|c calls IH]; simpl; intros w wn Hrun Hhd Hlast.
  - injection Hrun as <-. unfold transitions_on. simpl.
    rewrite Nat.add_0_r. auto.
  - destruct (PackagesService.updateStatus _ _ _ _ _) as [[r|e] w'] eqn:E;
      [|discriminate].
    apply updateStatus_Ok in E as (Hex & Hp & Hl). simpl in Hex, Hp, Hl.
    assert (Hlogs : logs_of id (db w')
                    = logs_of id (db w)
                      ++ (if String.eqb (call_id c) id
                          then [status_entry (call_id c) (call_status c)
                                  (call_userId c) (call_note c)
                                  (set_now (call_at c) w)]
                          else [])).
    { unfold logs_of at 1. rewrite Hl. apply logs_of_snoc. }
    unfold transitions_on. simpl. fold (transitions_on id calls).
    destruct (String.eqb_spec (call_id c) id) as [Hc|Hc].
    + destruct (IH w' wn Hrun) as (H1 & H2 & H3).
      * rewrite Hlogs. destruct (logs_of id (db w)); [discriminate|exact Hhd].
      * rewrite Hlogs, last_snoc. simpl. unfold status_of. rewrite Hp.
        rewrite <- Hc. symmetry. now apply status_of_set_status.
      * rewrite H1, Hlogs, length_app. unfold transitions_on. simpl.
        split; [lia|auto].
    + destruct (IH w' wn Hrun) as (H1 & H2 & H3).
      * rewrite Hlogs, app_nil_r. exact Hhd.
      * rewrite Hlogs, app_nil_r, Hlast. unfold status_of. rewrite Hp.
        now rewrite find_set_status_other by congruence.
      * rewrite H1, Hlogs, app_nil_r. unfold transitions_on. simpl.
        split; [lia|auto].
Qed.

(** C2: after [create] returned package [p], and whatever successful
    [updateStatus] requests were served since (on [p] or on other packages),
    the audit trail of [p] has one entry per transition performed on [p] plus
    one; its first entry is the DRAFT entry with note "Package created"; and
    its most recent entry carries the status that [p] has now. *)
Theorem audit_trail_complete (dto : CreatePackageDto) (u : string)
    (w0 w1 wn : World) (p : PermitPackage) (calls : list StatusCall) :
  fk_ok (db w0) ->
  PackagesService.create dto u w0 = (Ok p, w1) ->
  serve_updateStatus calls w1 = (true, wn) ->
  length (logs_of (pkg_id p) (db wn)) = transitions_on (pkg_id p) calls + 1
  /\ option_map (fun l => (log_status l, log_note l))
       (head (logs_of (pkg_id p) (db wn)))
     = Some (DRAFT, Some "Package created")
  /\ (exists l, last (logs_of (pkg_id p) (db wn)) = Some l
                /\ status_of (pkg_id p) (db wn) = Some (log_status l)).
Proof.
  intros Hfk Hc Hrun.
  apply create_Ok in Hc as (Hp & Hnew & Hpk & Hlg & _).
  set (first := mkStatusLog (uuid w0 (S (issued w0))) (pkg_id p) u DRAFT
                  (Some "Package created") (now w0)) in *.
  assert (Hlogs : logs_of (pkg_id p) (db w1) = [first]).
  { unfold logs_of at 1. rewrite Hlg, logs_of_snoc.
    rewrite (logs_of_nil_of_fk _ _ Hfk Hnew). simpl.
    now rewrite String.eqb_refl. }
  assert (Hst : status_of (pkg_id p) (db w1) = Some DRAFT).
  { unfold status_of. rewrite Hpk.
    rewrite (find_snoc_fresh _ _ p Hnew).
    - rewrite Hp. reflexivity.
    - unfold has_pkg_id. apply String.eqb_refl. }
  destruct (serve_updateStatus_trail (pkg_id p) first calls w1 wn Hrun)
    as (H1 & H2 & H3).
  - now rewrite Hlogs.
  - now rewrite Hlogs, Hst.
  - split; [rewrite H1, Hlogs; simpl; lia|].
    split; [now rewrite H2|].
    destruct (last (logs_of (pkg_id p) (db wn))) as [l|] eqn:El.
    + exists l. split; [reflexivity|]. simpl in H3. now rewrite <- H3.
    + apply last_None in El. rewrite El in H2. discriminate.
Qed.

Lemma audit_trail_complete_witness :
  fk_ok (db example_world)
  /\ exists (p : PermitPackage) (w1 wn : World),
       PackagesService.create example_dto "alice" example_world = (Ok p, w1)
       /\ serve_updateStatus example_calls w1 = (true, wn)
       /\ length (logs_of (pkg_id p) (db wn)) = 2 + 1
       /\ map log_status (logs_of (pkg_id p) (db wn))
          = [DRAFT; IN_REVIEW; APPROVED]
       /\ status_of (pkg_id p) (db wn) = Some APPROVED.
Proof.
  assert (Hfk : fk_ok (db example_world)).
  { unfold fk_ok. simpl. constructor. }
  split; [exact Hfk|].
  eassert (Hc : PackagesService.create example_dto "alice" example_world
                = (Ok _, _)) by (vm_compute; reflexivity).
  match type of Hc with
  | _ = (Ok ?p, ?w1) =>
      eassert (Hs : serve_updateStatus example_calls w1 = (true, _))
        by (vm_compute; reflexivity)
  end.
  destruct (audit_trail_complete _ _ _ _ _ _ _ Hfk Hc Hs) as (H1 & _ & _).
  eexists _, _, _. split; [exact Hc|]. split; [exact Hs|].
  split; [exact H1|]. split; vm_compute; reflexivity.
Defined.

(** [create] writes a package row and a status log row and nothing else:
    whatever its outcome, the checklist table is as it was. *)
Lemma create_leaves_checklists (dto : CreatePackageDto) (u : string)
    (w : World) :
  packageChecklistItems (db (snd (PackagesService.create dto u w)))
  = packageChecklistItems (db w).
Proof.
  unfold PackagesService.create, PackagesService.generatePackageNumber.
  unfold permitPackage.count, permitPackage.create, statusLog.create.
  unfold_store.
  destruct w as [d t fs g k rm ob]; simpl.
  destruct (existsb (has_pkg_id (g k)) (permitPackages d)) eqn:Hpk;
    destruct fs as [|[] [|[] fs]]; simpl; rewrite ?Hpk; simpl;
    try reflexivity;
    rewrite ?existsb_snoc_self by reflexivity;
    destruct (existsb (has_log_id (g (S k))) (statusLogs d)); reflexivity.
Qed.

(** C3, the code at the failing input: a MOBILE_HOME package is created in a
    county that has two applicable template rows (one for all permit types,
    one for mobile homes); [create] succeeds and the new package has an empty
    checklist. *)
Theorem create_instantiates_no_checklist :
  let (r, w') := PackagesService.create example_dto "alice" world_with_templates in
  exists p : PermitPackage,
    r = Ok p
    /\ map tpl_label
         (applicable_templates (pkg_countyId p) (pkg_permitType p) (db w'))
       = ["Site plan"; "HUD label photo"]
    /\ checklist_of (pkg_id p) (db w') = []
    /\ packageChecklistItems (db w') = [].
Proof.
  destruct (PackagesService.create example_dto "alice" world_with_templates)
    as [r w'] eqn:E.
  vm_compute in E. injection E as <- <-.
  eexists. repeat split; reflexivity.
Qed.

(** ** updateChecklistItem *)

Lemma find_set_completed (id : string)
    (f : PackageChecklistItem -> PackageChecklistItem)
    (l : list PackageChecklistItem) :
  (forall i, item_id (f i) = item_id i) ->
  List.find (has_item_id id) (map (fun j => if has_item_id id j then f j else j) l)
  = option_map f (List.find (has_item_id id) l).
Proof.
  intros Hid. induction l as [|a l IH]; simpl; [reflexivity|].
  destruct (has_item_id id a) eqn:E; simpl.
  - unfold has_item_id in *. rewrite Hid, E. reflexivity.
  - rewrite E. exact IH.
Qed.

Lemma updateChecklistItem_effect (itemId : string) (c : bool)
    (notes : option string) (w : World) :
  PackagesService.updateChecklistItem itemId c notes w
  = match List.find (has_item_id itemId) (packageChecklistItems (db w)) with
    | None => (Throw (NotFoundException "Checklist item not found"), w)
    | Some i =>
        if fault_at 0 w
        then (Throw (PrismaClientError "P1001"), set_faults (tail (faults w)) w)
        else
          (Ok (PackagesService.set_completed c
                 (if c then Some (now w) else None) notes i),
           set_db
             (set_packageChecklistItems
                (map (fun j =>
                        if has_item_id itemId j
                        then PackagesService.set_completed c
                               (if c then Some (now w) else None) notes j
                        else j)
                   (packageChecklistItems (db w)))
                (db w))
             (set_faults (tail (faults w)) w))
    end.
Proof.
  unfold PackagesService.updateChecklistItem, packageChecklistItem.findUnique.
  unfold packageChecklistItem.update, fault_at.
  unfold_store.
  destruct w as [d t fs g k rm ob]; simpl.
  destruct (List.find (has_item_id itemId) (packageChecklistItems d)) eqn:Hf;
    [|reflexivity].
  destruct fs as [|[] fs]; simpl; rewrite ?Hf; reflexivity.
Qed.

Lemma serve_toggle_last (itemId : string) (last_call : ToggleCall) :
  forall (calls : list ToggleCall) (w : World) (i : PackageChecklistItem),
  List.find (has_item_id itemId) (packageChecklistItems (db w)) = Some i ->
  faults w = [] ->
  exists (i' : PackageChecklistItem) (w' : World),
    serve_toggle itemId (calls ++ [last_call]) w = (true, w')
    /\ List.find (has_item_id itemId) (packageChecklistItems (db w')) = Some i'
    /\ item_completed i' = toggle_completed last_call
    /\ item_completedAt i'
       = (if toggle_completed last_call then Some (toggle_at last_call)
          else None).
Proof.
  induction calls as [|c calls IH]; simpl; intros w i Hf Hfs.
  - rewrite updateChecklistItem_effect. simpl. rewrite Hf.
    unfold fault_at. simpl. rewrite Hfs. simpl.
    eexists. eexists. split; [reflexivity|]. simpl.
    rewrite find_set_completed by reflexivity. rewrite Hf. simpl.
    repeat split; reflexivity.
  - rewrite updateChecklistItem_effect. simpl. rewrite Hf.
    unfold fault_at. simpl. rewrite Hfs. simpl.
    eapply IH.
    + simpl. rewrite find_set_completed by reflexivity. rewrite Hf.
      reflexivity.
    + reflexivity.
Qed.

(** C5: [updateChecklistItem] on an id that is not stored signals NotFound
    and changes nothing. On a stored item whose write goes through it stores
    and returns the item with [completed] as given, [completedAt] the current
    time when [completed] is true and null when it is false, the notes
    replaced when notes are given, and every other column as it was. Hence,
    after any sequence of toggles, the last one decides: a toggle to false
    leaves [completedAt] null, and true, false, true leaves the item
    completed with [completedAt] the time of the third toggle. *)
Theorem updateChecklistItem_toggles :
  (forall (itemId : string) (c : bool) (notes : option string) (w : World),
     let (r, w') := PackagesService.updateChecklistItem itemId c notes w in
     match List.find (has_item_id itemId) (packageChecklistItems (db w)) with
     | None =>
         r = Throw (NotFoundException "Checklist item not found") /\ w' = w
     | Some i =>
         fault_at 0 w = false ->
         exists i' : PackageChecklistItem,
           r = Ok i'
           /\ List.find (has_item_id itemId) (packageChecklistItems (db w'))
              = Some i'
           /\ item_completed i' = c
           /\ item_completedAt i' = (if c then Some (now w) else None)
           /\ item_notes i'
              = match notes with Some n => Some n | None => item_notes i end
           /\ item_id i' = item_id i
           /\ item_packageId i' = item_packageId i
           /\ item_label i' = item_label i
           /\ item_category i' = item_category i
           /\ item_required i' = item_required i
           /\ item_sort i' = item_sort i
     end)
  /\ (forall (itemId : string) (calls : list ToggleCall) (last_call : ToggleCall)
        (w : World) (i : PackageChecklistItem),
        List.find (has_item_id itemId) (packageChecklistItems (db w)) = Some i ->
        faults w = [] ->
        exists (i' : PackageChecklistItem) (w' : World),
          serve_toggle itemId (calls ++ [last_call]) w = (true, w')
          /\ List.find (has_item_id itemId) (packageChecklistItems (db w'))
             = Some i'
          /\ item_completed i' = toggle_completed last_call
          /\ item_completedAt i'
             = (if toggle_completed last_call
                then Some (toggle_at last_call) else None)).
Proof.
  split.
  - intros itemId c notes w. rewrite updateChecklistItem_effect.
    destruct (List.find (has_item_id itemId) (packageChecklistItems (db w)))
      as [i|] eqn:Hf; [|split; reflexivity].
    destruct (fault_at 0 w); intros Hfa; [discriminate|].
    eexists. split; [reflexivity|]. simpl.
    rewrite find_set_completed by reflexivity. rewrite Hf.
    repeat split; reflexivity.
  - intros itemId calls last_call w i. apply serve_toggle_last.
Qed.

Lemma updateChecklistItem_toggles_witness :
  (exists i' : PackageChecklistItem,
     fst (PackagesService.updateChecklistItem "id-2" true (Some "checked")
            world_with_checklist) = Ok i'
     /\ item_completed i' = true
     /\ item_completedAt i' = Some example_date
     /\ item_notes i' = Some "checked")
  /\ (exists (i' : PackageChecklistItem) (w' : World),
        serve_toggle "id-2" example_toggles world_with_checklist = (true, w')
        /\ item_completed i' = true
        /\ item_completedAt i' = Some (mkDate 1718000180000 2024)).
Proof.
  destruct updateChecklistItem_toggles as [A B]. split.
  - specialize (A "id-2" true (Some "checked") world_with_checklist).
    destruct (PackagesService.updateChecklistItem "id-2" true (Some "checked")
                world_with_checklist) as [r w'].
    destruct (List.find (has_item_id "id-2")
                (packageChecklistItems (db world_with_checklist)))
      as [i|] eqn:Hf; [|discriminate Hf].
    destruct (A eq_refl) as (i' & Hr & _ & Hc & Ht & Hn & _).
    exists i'. simpl. repeat split; assumption.
  - destruct (List.find (has_item_id "id-2")
                (packageChecklistItems (db world_with_checklist)))
      as [i|] eqn:Hf; [|discriminate Hf].
    destruct (B "id-2"
                [ mkToggleCall (mkDate 1718000060000 2024) true None;
                  mkToggleCall (mkDate 1718000120000 2024) false None ]
                (mkToggleCall (mkDate 1718000180000 2024) true None)
                world_with_checklist i Hf eq_refl)
      as (i' & w' & Hs & _ & Hc & Ht).
    exists i', w'. repeat split; assumption.
Defined.

(** ** createChecklistItems *)

Lemma item_create_effect (data : string -> PackageChecklistItem) (w : World) :
  packageChecklistItem.create data w
  = let id := uuid w (issued w) in
    let w1 := set_faults (tail (faults w)) (set_issued (S (issued w)) w) in
    if fault_at 0 w then (Throw (PrismaClientError "P1001"), w1)
    else if existsb (has_item_id id) (packageChecklistItems (db w))
    then (Throw (PrismaClientError "P2002"), w1)
    else if existsb (has_pkg_id (item_packageId (data id))) (permitPackages (db w))
    then (Ok (data id),
          set_db (set_packageChecklistItems
                    (packageChecklistItems (db w) ++ [data id]) (db w)) w1)
    else (Throw (PrismaClientError "P2003"), w1).
Proof.
  unfold packageChecklistItem.create, fault_at.
  unfold_store.
  destruct w as [d t fs g k rm ob]; simpl.
  destruct fs as [|[] fs]; simpl; try reflexivity;
    destruct (existsb (has_item_id (g k)) (packageChecklistItems d));
    try reflexivity;
    destruct (existsb _ (permitPackages d)); reflexivity.
Qed.

Lemma createChecklistItems_missing (packageId : string)
    (templateItems : list CountyChecklistTemplateItem) (w : World) :
  package_exists packageId (db w) = false ->
  PackagesService.createChecklistItems packageId templateItems w
  = (Throw (NotFoundException "Permit package not found"), w).
Proof.
  unfold package_exists. rewrite existsb_find.
  unfold PackagesService.createChecklistItems, permitPackage.findUnique.
  unfold bind, read_db, ret, throw.
  destruct (List.find _ _); [discriminate|reflexivity].
Qed.

Lemma createChecklistItems_exists (packageId : string)
    (templateItems : list CountyChecklistTemplateItem) (w : World) :
  package_exists packageId (db w) = true ->
  PackagesService.createChecklistItems packageId templateItems w
  = Promise_all
      (map (fun item =>
              packageChecklistItem.create
                (PackagesService.from_template packageId item))
         templateItems) w.
Proof.
  unfold package_exists. rewrite existsb_find.
  unfold PackagesService.createChecklistItems, permitPackage.findUnique.
  unfold bind, read_db, ret, throw.
  destruct (List.find _ _); [reflexivity|discriminate].
Qed.

Lemma clone_all_Ok (packageId : string) :
  forall (templateItems : list CountyChecklistTemplateItem) (w : World)
         (items : list PackageChecklistItem) (w' : World),
  Promise_all
    (map (fun item =>
            packageChecklistItem.create
              (PackagesService.from_template packageId item))
       templateItems) w = (Ok items, w') ->
  items
  = zip_with (PackagesService.from_template packageId) templateItems
      (map (uuid w) (seq (issued w) (length templateItems)))
  /\ packageChecklistItems (db w') = packageChecklistItems (db w) ++ items
  /\ permitPackages (db w') = permitPackages (db w)
  /\ statusLogs (db w') = statusLogs (db w).
Proof.
  induction templateItems as [|t ts IH]; simpl; intros w items w' H.
  - injection H as <- <-. rewrite app_nil_r. auto.
  - rewrite item_create_effect in H. simpl in H.
    destruct (fault_at 0 w);
      [destruct (Promise_all _ _) as [? ?]; discriminate|].
    destruct (existsb (has_item_id _) _);
      [destruct (Promise_all _ _) as [? ?]; discriminate|].
    destruct (existsb (has_pkg_id _) _);
      [|destruct (Promise_all _ _) as [? ?]; discriminate].
    destruct (Promise_all _ _) as [[l|e] w2] eqn:E; [|discriminate].
    injection H as <- <-.
    apply IH in E as (-> & Hi & Hp & Hl). simpl in *.
    rewrite Hi, Hp, Hl, <- app_assoc. simpl. auto.
Qed.

Lemma clone_all_succeeds (packageId : string) :
  forall (templateItems : list CountyChecklistTemplateItem) (w : World),
  package_exists packageId (db w) = true ->
  faults w = [] ->
  NoDup (map (uuid w) (seq (issued w) (length templateItems))) ->
  Forall (fun id => existsb (has_item_id id) (packageChecklistItems (db w)) = false)
    (map (uuid w) (seq (issued w) (length templateItems))) ->
  is_ok (fst (Promise_all
                (map (fun item =>
                        packageChecklistItem.create
                          (PackagesService.from_template packageId item))
                   templateItems) w)) = true.
Proof.
  induction templateItems as [|t ts IH]; simpl; intros w Hex Hfs Hnd Hfr;
    [reflexivity|].
  rewrite item_create_effect. simpl.
  apply NoDup_cons in Hnd as [Hnotin Hnd].
  apply Forall_cons in Hfr as [Hfr0 Hfr].
  unfold fault_at. rewrite Hfs. simpl. rewrite Hfr0.
  unfold package_exists in Hex. rewrite Hex.
  match goal with
  | |- context [Promise_all ?ps ?w1] =>
      specialize (IH w1); destruct (Promise_all ps w1) as [[l|e] w2] eqn:E
  end; [reflexivity|].
  simpl in IH. rewrite ?Hfs in IH. simpl in IH.
  exfalso. enough (false = true) by discriminate. apply IH; auto.
  clear IH E. revert Hnotin Hfr.
  generalize (map (uuid w) (seq (S (issued w)) (length ts))). intros ids Hnotin Hfr.
  induction Hfr as [|id ids Hid _ IHf]; constructor.
  - rewrite existsb_app, Hid. simpl. unfold has_item_id. simpl.
    rewrite orb_false_r. apply String.eqb_neq. intros <-.
    apply Hnotin. now left.
  - apply IHf. intros Hin. apply Hnotin. now right.
Qed.

Lemma Forall2_zip_with_seq {A B} (P : A -> B -> Prop) (f : A -> string -> B)
    (g : nat -> string) :
  (forall a id, P a (f a id)) ->
  forall (l : list A) (k : nat),
  Forall2 P l (zip_with f l (map g (seq k (length l)))).
Proof.
  intros Hf. induction l as [|a l IH]; simpl; intros k; constructor.
  - apply Hf.
  - apply IH.
Qed.

(** C6: [createChecklistItems] on an id that is not stored signals NotFound
    and changes nothing. On a stored package, when no write is rejected and
    the ids drawn are new, the call succeeds; and whenever it succeeds, the
    items it returns are the supplied rows cloned one for one, in order,
    whatever their permit type: label, category, required and sort copied,
    [completed] false and [completedAt] null; exactly these items are
    appended to the checklist table. *)
Theorem createChecklistItems_clones_supplied_rows (packageId : string)
    (templateItems : list CountyChecklistTemplateItem) (w : World) :
  let (r, w') :=
    PackagesService.createChecklistItems packageId templateItems w in
  let ids := map (uuid w) (seq (issued w) (length templateItems)) in
  if package_exists packageId (db w)
  then
    (faults w = [] ->
     NoDup ids ->
     Forall (fun id =>
               existsb (has_item_id id) (packageChecklistItems (db w)) = false)
       ids ->
     is_ok r = true)
    /\ (forall items : list PackageChecklistItem,
          r = Ok items ->
          Forall2
            (fun t i =>
               item_packageId i = packageId
               /\ item_label i = tpl_label t
               /\ item_category i = tpl_category t
               /\ item_required i = tpl_required t
               /\ item_sort i = tpl_sort t
               /\ item_completed i = false
               /\ item_completedAt i = None)
            templateItems items
          /\ map item_id items = ids
          /\ packageChecklistItems (db w')
             = packageChecklistItems (db w) ++ items)
  else r = Throw (NotFoundException "Permit package not found") /\ w' = w.
Proof.
  destruct (PackagesService.createChecklistItems packageId templateItems w)
    as [r w'] eqn:E.
  destruct (package_exists packageId (db w)) eqn:Hex; simpl.
  - rewrite createChecklistItems_exists in E by exact Hex. split.
    + intros Hfs Hnd Hfr.
      pose proof (clone_all_succeeds packageId templateItems w Hex Hfs Hnd Hfr)
        as H.
      rewrite E in H. exact H.
    + intros items ->. apply clone_all_Ok in E as (-> & Hi & _). split.
      * apply Forall2_zip_with_seq. intros t id. repeat split; reflexivity.
      * split; [|exact Hi]. clear.
        generalize (issued w). induction templateItems as [|t ts IH];
          intros k; simpl; [reflexivity|]. now rewrite IH.
  - rewrite createChecklistItems_missing in E by exact Hex.
    injection E as <- <-. split; reflexivity.
Qed.

Lemma createChecklistItems_clones_supplied_rows_witness :
  (let (r, w') :=
     PackagesService.createChecklistItems "id-0" example_templates
       world_after_create in
   is_ok r = true
   /\ map item_label (packageChecklistItems (db w'))
      = ["Site plan"; "HUD label photo"; "Energy calculations"])
  /\ (let (r, w') :=
        PackagesService.createChecklistItems "id-9" example_templates
          world_after_create in
      r = Throw (NotFoundException "Permit package not found")
      /\ w' = world_after_create).
Proof.
  split.
  - pose proof (createChecklistItems_clones_supplied_rows "id-0"
                  example_templates world_after_create) as H.
    destruct (PackagesService.createChecklistItems "id-0" example_templates
                world_after_create) as [r w'] eqn:E.
    change (package_exists "id-0" (db world_after_create)) with true in H.
    destruct H as [Hok Hitems]. split.
    + apply Hok; [reflexivity| |].
      * apply (bool_decide_unpack _). vm_compute. exact I.
      * vm_compute. repeat constructor.
    + vm_compute in E. injection E as <- <-. reflexivity.
  - exact (createChecklistItems_clones_supplied_rows "id-9" example_templates
             world_after_create).
Defined.

(** ** Package numbers *)

Lemma prefix_append (s t : string) : String.prefix s (s +:+ t) = true.
Proof.
  apply String.prefix_correct.
  induction s as [|a s IH]; simpl.
  - destruct t; reflexivity.
  - now rewrite IH.
Qed.

Lemma append_assoc (s t v : string) : (s +:+ t) +:+ v = s +:+ (t +:+ v).
Proof.
  induction s as [|a s IH]; [reflexivity|].
  change (String a ((s +:+ t) +:+ v) = String a (s +:+ (t +:+ v))).
  now rewrite IH.
Qed.

Lemma append_inj_r (s t t' : string) : s +:+ t = s +:+ t' -> t = t'.
Proof.
  induction s as [|a s IH]; simpl; intros H; [exact H|].
  injection H as H. now apply IH.
Qed.

Lemma of_uint_zeros (k : nat) (d : Decimal.uint) :
  Nat.of_uint (Nat.iter k Decimal.D0 d) = Nat.of_uint d.
Proof.
  induction k as [|k IH]; simpl; [reflexivity|].
  rewrite <- IH. reflexivity.
Qed.

Lemma parse_padded (k n : nat) :
  NilEmpty.uint_of_string (repeat_char "0" k +:+ toString n)
  = Some (Nat.iter k Decimal.D0 (Nat.to_uint n)).
Proof.
  induction k as [|k IH]; simpl.
  - apply NilEmpty.usu.
  - rewrite IH. reflexivity.
Qed.

Lemma padStart_toString_inj (n m : nat) :
  padStart 4 "0" (toString n) = padStart 4 "0" (toString m) -> n = m.
Proof.
  unfold padStart. intros H.
  apply (f_equal NilEmpty.uint_of_string) in H.
  rewrite !parse_padded in H. injection H as H.
  apply (f_equal Nat.of_uint) in H.
  now rewrite !of_uint_zeros, !DecimalNat.Unsigned.of_to in H.
Qed.

Lemma package_number_inj (year n m : nat) :
  package_number year n = package_number year m -> n = m.
Proof.
  unfold package_number. intros H.
  apply append_inj_r in H. now apply padStart_toString_inj.
Qed.

Lemma padStart_length (k : nat) (c : ascii) (s : string) :
  String.length (padStart k c s) = Nat.max k (String.length s).
Proof.
  unfold padStart.
  assert (Hl : forall j, String.length (repeat_char c j) = j).
  { induction j; simpl; congruence. }
  assert (Ha : forall a b, String.length (a +:+ b)
                           = String.length a + String.length b).
  { induction a; simpl; intros; [reflexivity|]. now rewrite IHa. }
  rewrite Ha, Hl. lia.
Qed.

Lemma numbered_in_after_create (dto : CreatePackageDto) (u : string)
    (w w' : World) (p : PermitPackage) :
  PackagesService.create dto u w = (Ok p, w') ->
  pkg_packageNumber p
  = package_number (getFullYear (now w))
      (numbered_in (getFullYear (now w)) (db w) + 1)
  /\ numbered_in (getFullYear (now w)) (db w')
     = numbered_in (getFullYear (now w)) (db w) + 1.
Proof.
  intros H. apply create_Ok in H as (Hp & _ & Hpk & _).
  split; [rewrite Hp; reflexivity|].
  unfold numbered_in at 1. rewrite Hpk, List.filter_app, length_app. simpl.
  rewrite Hp at 1. simpl. unfold package_number.
  rewrite prefix_append. reflexivity.
Qed.

Lemma serve_create_numbers (year : nat) :
  forall (calls : list CreateCall) (w w' : World) (ns : list string),
  Forall (fun c => getFullYear (create_at c) = year) calls ->
  serve_create calls w = (Some ns, w') ->
  ns = map (package_number year)
         (seq (numbered_in year (db w) + 1) (length calls)).
Proof.
  induction calls as [|c calls IH]; simpl; intros w w' ns Hy H.
  - now injection H as <- <-.
  - apply Forall_cons in Hy as [Hc Hy].
    destruct (PackagesService.create _ _ _) as [[p|e] w1] eqn:E;
      [|discriminate].
    destruct (serve_create calls w1) as [[ns'|] w2] eqn:E'; [|discriminate].
    injection H as <- <-.
    apply numbered_in_after_create in E as [Hn Hcount]. simpl in Hn, Hcount.
    rewrite Hc in Hn, Hcount.
    rewrite (IH w1 w2 ns' Hy E'), Hn, Hcount.
    f_equal. f_equal. f_equal. lia.
Qed.

(** C10: [create] gives the package the number "PKG-Y-NNNN", where Y is the
    year of the clock and NNNN is one plus the count of stored packages
    whose number starts with "PKG-Y-", padded with zeros to at least four
    digits. Hence the numbers handed out by creations served one after the
    other in year Y are the consecutive numbers that follow the count found
    at the start, and they are pairwise distinct. *)
Theorem package_numbers_consecutive :
  (forall (dto : CreatePackageDto) (u : string) (w w' : World)
          (p : PermitPackage),
     PackagesService.create dto u w = (Ok p, w') ->
     let year := getFullYear (now w) in
     let n := numbered_in year (db w) + 1 in
     pkg_packageNumber p
     = "PKG-" +:+ toString year +:+ "-" +:+ padStart 4 "0" (toString n)
     /\ String.length (padStart 4 "0" (toString n))
        = Nat.max 4 (String.length (toString n))
     /\ numbered_in year (db w') = n)
  /\ (forall (year : nat) (calls : list CreateCall) (w w' : World)
             (ns : list string),
        Forall (fun c => getFullYear (create_at c) = year) calls ->
        serve_create calls w = (Some ns, w') ->
        ns = map (package_number year)
               (seq (numbered_in year (db w) + 1) (length calls))
        /\ NoDup ns).
Proof.
  split.
  - intros dto u w w' p H.
    apply numbered_in_after_create in H as [Hn Hc].
    split; [|split; [apply padStart_length|exact Hc]].
    rewrite Hn. unfold package_number, PackagesService.prefix_of_year.
    now rewrite !append_assoc.
  - intros year calls w w' ns Hy H.
    pose proof (serve_create_numbers year calls w w' ns Hy H) as ->.
    split; [reflexivity|].
    assert (Hinj : Inj (=) (=) (package_number year)).
    { intros n m. apply package_number_inj. }
    apply (NoDup_fmap_2 (package_number year)), NoDup_seq.
Qed.

Lemma package_numbers_consecutive_witness :
  Forall (fun c => getFullYear (create_at c) = 2024) example_creates
  /\ exists (ns : list string) (w' : World),
       serve_create example_creates world_after_create = (Some ns, w')
       /\ ns = ["PKG-2024-0002"; "PKG-2024-0003"; "PKG-2024-0004"]
       /\ NoDup ns.
Proof.
  assert (Hy : Forall (fun c => getFullYear (create_at c) = 2024)
                 example_creates).
  { repeat constructor. }
  split; [exact Hy|].
  eassert (E : serve_create example_creates world_after_create = (Some _, _))
    by (vm_compute; reflexivity).
  destruct package_numbers_consecutive as [_ B].
  destruct (B 2024 _ _ _ _ Hy E) as [_ Hnd].
  eexists _, _. split; [exact E|]. split; [reflexivity|exact Hnd].
Defined.

(** ** Joining a package room *)

Lemma emitted_since_app (w w' : World) (ds : list Delivery) :
  outbox w' = outbox w ++ ds -> emitted_since w w' = ds.
Proof. unfold emitted_since. intros ->. apply drop_app_length. Qed.

Lemma broadcast_recipients (room : string) (ev : Event) (w : World) :
  emitted_since w (snd (server_to_emit room ev w))
  = deliver ev (elements (members room w)).
Proof. apply emitted_since_app. reflexivity. Qed.

(** C7, as amended: a join-package request from a connection whose user
    neither created nor last updated the package is answered with one error
    event to that connection and nothing else: no room changes, the store is
    untouched, no presence event goes out. A connection that was not in the
    room before the request is not in it afterwards, and as long as the room
    stays as it is no broadcast to it reaches that connection. *)
Theorem unauthorized_join_is_refused (packageId : string)
    (client : AuthenticatedSocket) (w : World) :
  List.find (PermitWebSocketGateway.may_join packageId (userId client))
    (permitPackages (db w)) = None ->
  let (r, w') := PermitWebSocketGateway.handleJoinPackage packageId client w in
  r = Ok tt
  /\ emitted_since w w'
     = [mkDelivery (socket_id client) (error "Access denied to this package")]
  /\ rooms w' = rooms w
  /\ db w' = db w
  /\ ((socket_id client ∉ members (PermitWebSocketGateway.room_of packageId) w) ->
      (socket_id client ∉ members (PermitWebSocketGateway.room_of packageId) w')
      /\ forall (w'' : World) (ev : Event),
           rooms w'' = rooms w' ->
           Forall (fun d => recipient d <> socket_id client)
             (emitted_since w''
                (snd (PermitWebSocketGateway.emitToPackage packageId ev w'')))).
Proof.
  intros Hf.
  unfold PermitWebSocketGateway.handleJoinPackage, try_catch.
  unfold permitPackage.findFirst, bind, read_db, ret. rewrite Hf.
  unfold client_emit. simpl.
  split; [reflexivity|]. split; [now apply emitted_since_app|].
  split; [reflexivity|]. split; [reflexivity|].
  intros Hnot. split; [exact Hnot|].
  intros w'' ev Hrooms.
  change (Forall (fun d => recipient d <> socket_id client)
            (emitted_since w''
               (snd (server_to_emit (PermitWebSocketGateway.room_of packageId)
                       ev w'')))).
  rewrite broadcast_recipients. unfold deliver.
  apply Forall_fmap, Forall_forall. intros sid Hin. simpl. intros ->.
  apply elem_of_elements in Hin. apply Hnot.
  unfold members in *. simpl in Hrooms. now rewrite <- Hrooms.
Qed.

Lemma unauthorized_join_is_refused_witness :
  List.find (PermitWebSocketGateway.may_join "id-0" (userId carol_socket))
    (permitPackages (db world_bob_joined)) = None
  /\ (socket_id carol_socket
      ∉ members (PermitWebSocketGateway.room_of "id-0") world_bob_joined)
  /\ (let (r, w') :=
        PermitWebSocketGateway.handleJoinPackage "id-0" carol_socket
          world_bob_joined in
      emitted_since world_bob_joined w'
      = [mkDelivery "socket-carol" (error "Access denied to this package")]
      /\ (socket_id carol_socket
          ∉ members (PermitWebSocketGateway.room_of "id-0") w')).
Proof.
  assert (Hf : List.find
                 (PermitWebSocketGateway.may_join "id-0" (userId carol_socket))
                 (permitPackages (db world_bob_joined)) = None)
    by (vm_compute; reflexivity).
  assert (Hn : socket_id carol_socket
               ∉ members (PermitWebSocketGateway.room_of "id-0")
                   world_bob_joined).
  { apply (bool_decide_unpack _). vm_compute. exact I. }
  split; [exact Hf|]. split; [exact Hn|].
  pose proof (unauthorized_join_is_refused "id-0" carol_socket
                world_bob_joined Hf) as H.
  destruct (PermitWebSocketGateway.handleJoinPackage "id-0" carol_socket
              world_bob_joined) as [r w'].
  destruct H as (_ & He & _ & _ & Hm).
  split; [exact He|]. exact (proj1 (Hm Hn)).
Defined.

(** C7, the claim as stated fails: bob joined the room of package ["id-0"]
    while he was its updater; alice's later status change made her the
    updater, so bob is neither creator nor updater any more. His next
    join-package request is refused with an error event, yet the following
    broadcast to the room is delivered to his connection. *)
Lemma refused_join_still_receives_broadcasts :
  let (r, w') :=
    PermitWebSocketGateway.handleJoinPackage "id-0" bob_socket world_bob_stale in
  let ev := status_updated "id-0" "APPROVED" None "alice" example_date in
  List.find (PermitWebSocketGateway.may_join "id-0" (userId bob_socket))
    (permitPackages (db world_bob_stale)) = None
  /\ emitted_since world_bob_stale w'
     = [mkDelivery "socket-bob" (error "Access denied to this package")]
  /\ emitted_since w'
       (snd (PermitWebSocketGateway.emitToPackage "id-0" ev w'))
     = [mkDelivery "socket-bob" ev].
Proof. vm_compute. repeat split; reflexivity. Qed.

(** ** Broadcast after persist *)

Lemma handleToggleChecklistItem_effect (packageId itemId : string)
    (c : bool) (client : AuthenticatedSocket) (w : World) :
  let (r, w') :=
    PermitWebSocketGateway.handleToggleChecklistItem packageId itemId c
      client w in
  let stamp := if c then Some (now w) else None in
  r = Ok tt
  /\ rooms w' = rooms w
  /\ if negb (fault_at 0 w)
        && existsb (has_item_id itemId) (packageChecklistItems (db w))
     then
       emitted_since w w'
       = deliver (checklist_updated itemId c (userId client) (now w))
           (elements (members (PermitWebSocketGateway.room_of packageId) w))
       /\ List.find (has_item_id itemId) (packageChecklistItems (db w'))
          = option_map (PackagesService.set_completed c stamp None)
              (List.find (has_item_id itemId) (packageChecklistItems (db w)))
     else
       emitted_since w w'
       = [mkDelivery (socket_id client)
            (error "Failed to update checklist item")]
       /\ db w' = db w.
Proof.
  unfold PermitWebSocketGateway.handleToggleChecklistItem, try_catch.
  unfold packageChecklistItem.update, server_to_emit, client_emit, fault_at.
  unfold_store.
  rewrite existsb_find.
  destruct w as [d t fs g k rm ob]; simpl.
  destruct (List.find (has_item_id itemId) (packageChecklistItems d)) eqn:Hf;
    destruct fs as [|[] fs]; simpl; rewrite ?Hf; simpl;
    (split; [reflexivity|]); (split; [reflexivity|]);
    (split; [now apply emitted_since_app|]);
    try reflexivity;
    rewrite find_set_completed by reflexivity; rewrite Hf; reflexivity.
Qed.

Lemma handleUpdateStatus_effect (accepts : string -> option PackageStatus)
    (packageId status : string)
    (note : option string) (client : AuthenticatedSocket) (w : World) :
  let (r, w') :=
    PermitWebSocketGateway.handleUpdateStatus accepts packageId status note
      client w in
  r = Ok tt
  /\ rooms w' = rooms w
  /\ match accepts status with
     | None =>
         emitted_since w w'
         = [mkDelivery (socket_id client) (error "Failed to update status")]
         /\ db w' = db w
     | Some s =>
         if negb (fault_at 0 w) && package_exists packageId (db w)
         then
           status_of packageId (db w') = Some s
           /\ if negb (fault_at 1 w) && fresh_log_id w
              then
                emitted_since w w'
                = deliver
                    (status_updated packageId status note (userId client)
                       (now w))
                    (elements
                       (members (PermitWebSocketGateway.room_of packageId) w))
                /\ statusLogs (db w')
                   = statusLogs (db w)
                     ++ [status_entry packageId s (userId client) note w]
              else
                emitted_since w w'
                = [mkDelivery (socket_id client)
                     (error "Failed to update status")]
                /\ statusLogs (db w') = statusLogs (db w)
         else
           emitted_since w w'
           = [mkDelivery (socket_id client) (error "Failed to update status")]
           /\ db w' = db w
     end.
Proof.
  unfold PermitWebSocketGateway.handleUpdateStatus, try_catch.
  destruct (accepts status) as [s|].
  2:{ unfold throw, client_emit. simpl.
      repeat split; try reflexivity. now apply emitted_since_app. }
  unfold permitPackage.update, statusLog.create, server_to_emit, client_emit.
  unfold fault_at, fresh_log_id, package_exists, status_of, status_entry.
  unfold_store.
  destruct w as [d t fs g k rm ob]; simpl.
  destruct (existsb (has_pkg_id packageId) (permitPackages d)) eqn:Hex.
  - pose proof Hex as Hf. rewrite existsb_find in Hf.
    destruct (List.find (has_pkg_id packageId) (permitPackages d)) as [p|] eqn:Hp;
      [clear Hf|discriminate].
    destruct fs as [|[] [|[] fs]];
      repeat (progress (simpl; rewrite ?Hp, ?existsb_set_status, ?Hex));
      destruct (existsb (has_log_id (g k)) (statusLogs d));
      repeat (progress (simpl; rewrite ?Hp, ?existsb_set_status, ?Hex,
                          ?find_set_status_same));
      repeat split; try reflexivity; now apply emitted_since_app.
  - pose proof Hex as Hf. rewrite existsb_find in Hf.
    destruct (List.find (has_pkg_id packageId) (permitPackages d)) as [p|] eqn:Hp;
      [discriminate|clear Hf].
    destruct fs as [|[] fs]; simpl; rewrite ?Hp; simpl;
      repeat split; try reflexivity; now apply emitted_since_app.
Qed.

(** C8: in both real-time handlers a room broadcast goes out only when
    every store write of the handler went through, and the store then holds
    the mutation; when a write is rejected, the only delivery is one error
    event to the originating connection, so no broadcast is made. For
    [update-status] this holds whatever status strings the validation
    accepts. *)
Theorem broadcast_only_after_persist :
  (forall (packageId itemId : string) (c : bool)
          (client : AuthenticatedSocket) (w : World),
     let (r, w') :=
       PermitWebSocketGateway.handleToggleChecklistItem packageId itemId c
         client w in
     r = Ok tt
     /\ (has_broadcast (emitted_since w w') = true ->
         toggle_persists itemId w = true)
     /\ if toggle_persists itemId w
        then
          emitted_since w w'
          = deliver (checklist_updated itemId c (userId client) (now w))
              (elements (members (PermitWebSocketGateway.room_of packageId) w))
          /\ option_map item_completed
               (List.find (has_item_id itemId) (packageChecklistItems (db w')))
             = Some c
        else
          emitted_since w w'
          = [mkDelivery (socket_id client)
               (error "Failed to update checklist item")]
          /\ db w' = db w)
  /\ (forall (accepts : string -> option PackageStatus)
             (packageId status : string) (note : option string)
             (client : AuthenticatedSocket) (w : World),
        let (r, w') :=
          PermitWebSocketGateway.handleUpdateStatus accepts packageId status
            note client w in
        r = Ok tt
        /\ (has_broadcast (emitted_since w w') = true ->
            status_persists accepts packageId status w = true)
        /\ if status_persists accepts packageId status w
           then
             emitted_since w w'
             = deliver
                 (status_updated packageId status note (userId client) (now w))
                 (elements
                    (members (PermitWebSocketGateway.room_of packageId) w))
             /\ status_of packageId (db w') = accepts status
             /\ option_map log_status (last (statusLogs (db w')))
                = accepts status
           else
             emitted_since w w'
             = [mkDelivery (socket_id client) (error "Failed to update status")]).
Proof.
  split.
  - intros packageId itemId c client w.
    pose proof (handleToggleChecklistItem_effect packageId itemId c client w)
      as H.
    destruct (PermitWebSocketGateway.handleToggleChecklistItem _ _ _ _ _)
      as [r w'].
    destruct H as (Hr & _ & H). split; [exact Hr|].
    unfold toggle_persists.
    destruct (negb (fault_at 0 w) && existsb _ _) eqn:Hp.
    + destruct H as [He Hf]. rewrite He, Hf.
      apply andb_true_iff in Hp as [_ Hex]. rewrite existsb_find in Hex.
      destruct (List.find _ _); [|discriminate].
      split; [reflexivity|]. split; reflexivity.
    + destruct H as [He Hd]. rewrite He. split; [discriminate|].
      split; [reflexivity|exact Hd].
  - intros accepts packageId status note client w.
    pose proof (handleUpdateStatus_effect accepts packageId status note client
                  w) as H.
    destruct (PermitWebSocketGateway.handleUpdateStatus _ _ _ _ _ _) as [r w'].
    destruct H as (Hr & _ & H). split; [exact Hr|].
    unfold status_persists.
    destruct (accepts status) as [s|].
    2:{ destruct H as [He _]. rewrite He. split; [discriminate|reflexivity]. }
    destruct (negb (fault_at 0 w) && package_exists packageId (db w)).
    2:{ destruct H as [He _]. rewrite He. split; [discriminate|reflexivity]. }
    destruct H as [Hs H].
    destruct (negb (fault_at 1 w) && fresh_log_id w).
    + destruct H as [He Hl]. rewrite He, Hl, last_snoc, Hs.
      split; [reflexivity|]. repeat split; reflexivity.
    + destruct H as [He _]. rewrite He. split; [discriminate|reflexivity].
Qed.

Lemma broadcast_only_after_persist_witness :
  (let (r, w') :=
     PermitWebSocketGateway.handleToggleChecklistItem "id-0" "id-3" true
       bob_socket world_collab in
   emitted_since world_collab w'
   = [mkDelivery "socket-bob"
        (checklist_updated "id-3" true "bob" example_date)])
  /\ (let w := set_faults [false; true] world_collab in
      let (r, w') :=
        PermitWebSocketGateway.handleUpdateStatus PackageStatus_of_string
          "id-0" "APPROVED" None bob_socket w in
      emitted_since w w'
      = [mkDelivery "socket-bob" (error "Failed to update status")])
  /\ (let (r, w') :=
        PermitWebSocketGateway.handleUpdateStatus PackageStatus_of_string
          "id-0" "UNDER_REVIEW" None bob_socket world_collab in
      emitted_since world_collab w'
      = [mkDelivery "socket-bob"
           (status_updated "id-0" "UNDER_REVIEW" None "bob" example_date)]
      /\ status_of "id-0" (db w') = Some UNDER_REVIEW).
Proof.
  destruct broadcast_only_after_persist as [A B]. split; [|split].
  - specialize (A "id-0" "id-3" true bob_socket world_collab).
    destruct (PermitWebSocketGateway.handleToggleChecklistItem "id-0" "id-3"
                true bob_socket world_collab) as [r w'].
    assert (Hp : toggle_persists "id-3" world_collab = true)
      by (vm_compute; reflexivity).
    rewrite Hp in A. destruct A as (_ & _ & He & _).
    rewrite He. vm_compute. reflexivity.
  - specialize (B PackageStatus_of_string "id-0" "APPROVED" None bob_socket
                  (set_faults [false; true] world_collab)).
    cbv zeta.
    destruct (PermitWebSocketGateway.handleUpdateStatus PackageStatus_of_string
                "id-0" "APPROVED" None bob_socket
                (set_faults [false; true] world_collab)) as [r w'].
    assert (Hp : status_persists PackageStatus_of_string "id-0" "APPROVED"
                   (set_faults [false; true] world_collab) = false)
      by (vm_compute; reflexivity).
    rewrite Hp in B. destruct B as (_ & _ & He). exact He.
  - specialize (B PackageStatus_of_string "id-0" "UNDER_REVIEW" None bob_socket
                  world_collab).
    destruct (PermitWebSocketGateway.handleUpdateStatus PackageStatus_of_string
                "id-0" "UNDER_REVIEW" None bob_socket world_collab)
      as [r w'].
    assert (Hp : status_persists PackageStatus_of_string "id-0" "UNDER_REVIEW"
                   world_collab = true)
      by (vm_compute; reflexivity).
    rewrite Hp in B. destruct B as (_ & _ & He & Hs & _).
    rewrite He, Hs. split; vm_compute; reflexivity.
Defined.

(** ** Progress statistics *)

(** The four counts are the lengths the component takes, and an empty
    denominator gives 0 percent. *)
Lemma getProgressStats_counts (items : list PackageChecklistItem) :
  let s := ChecklistEditor.getProgressStats items in
  ChecklistEditor.total s = length items
  /\ ChecklistEditor.completed s = length (List.filter item_completed items)
  /\ ChecklistEditor.required s = length (List.filter item_required items)
  /\ ChecklistEditor.requiredCompleted s
     = length (List.filter
                 (fun i => item_required i && item_completed i) items)
  /\ (ChecklistEditor.total s = 0 -> ChecklistEditor.percentage s = 0%Z)
  /\ (ChecklistEditor.required s = 0 ->
      ChecklistEditor.requiredPercentage s = 0%Z).
Proof.
  simpl. repeat split; try reflexivity.
  - intros ->. reflexivity.
  - intros ->. reflexivity.
Qed.

(** Ten items, four completed, six required, three of these completed:
    40 and 50 percent. *)
Lemma getProgressStats_P4 (items : list PackageChecklistItem) :
  let s := ChecklistEditor.getProgressStats items in
  ChecklistEditor.total s = 10 ->
  ChecklistEditor.completed s = 4 ->
  ChecklistEditor.required s = 6 ->
  ChecklistEditor.requiredCompleted s = 3 ->
  ChecklistEditor.percentage s = 40%Z
  /\ ChecklistEditor.requiredPercentage s = 50%Z.
Proof.
  simpl. intros -> -> -> ->. split; vm_compute; reflexivity.
Qed.

(** C9, the code at the failing input: for forty items of which twenty-three
    are completed the counts are right, but the percentage is 57, whereas
    [round(100 * 23 / 40)], the rounding of 57.5, is 58. The double nearest
    to 23/40 lies below 0.575, so the product with 100 is
    57.49999999999999 and [Math.round] takes it down. *)
Theorem getProgressStats_23_of_40 :
  let s := ChecklistEditor.getProgressStats checklist_23_of_40 in
  ChecklistEditor.total s = 40
  /\ ChecklistEditor.completed s = 23
  /\ ChecklistEditor.percentage s = 57%Z
  /\ round_percent (ChecklistEditor.completed s) (ChecklistEditor.total s)
     = 58%Z
  /\ ChecklistEditor.requiredPercentage s = 57%Z
  /\ round_percent (ChecklistEditor.requiredCompleted s)
       (ChecklistEditor.required s) = 58%Z.
Proof. vm_compute. repeat split; reflexivity. Qed.

(** * Further properties *)

(** ** Rooms *)

Lemma room_of_inj (a b : string) :
  PermitWebSocketGateway.room_of a = PermitWebSocketGateway.room_of b -> a = b.
Proof. unfold PermitWebSocketGateway.room_of. apply append_inj_r. Qed.

Lemma members_insert_same (room : string) (m : gset string) (w : World) :
  members room (set_rooms (<[room := m]> (rooms w)) w) = m.
Proof. unfold members. simpl. now rewrite lookup_insert_eq. Qed.

Lemma members_insert_other (room room' : string) (m : gset string) (w : World) :
  room <> room' ->
  members room' (set_rooms (<[room := m]> (rooms w)) w) = members room' w.
Proof. intros H. unfold members. simpl. now rewrite lookup_insert_ne. Qed.

Lemma join_then_others (c : string) (m : gset string) :
  ({[c]} ∪ m) ∖ {[c]} = m ∖ {[c]}.
Proof.
  apply set_eq. intros x.
  rewrite !elem_of_difference, elem_of_union, elem_of_singleton. tauto.
Qed.

Lemma handleJoinPackage_effect (packageId : string)
    (client : AuthenticatedSocket) (w : World) :
  PermitWebSocketGateway.handleJoinPackage packageId client w
  = match List.find (PermitWebSocketGateway.may_join packageId (userId client))
            (permitPackages (db w)) with
    | None =>
        (Ok tt,
         set_outbox
           (outbox w
            ++ [mkDelivery (socket_id client)
                  (error "Access denied to this package")]) w)
    | Some _ =>
        let room := PermitWebSocketGateway.room_of packageId in
        let joined := {[socket_id client]} ∪ members room w in
        (Ok tt,
         set_outbox
           ((outbox w ++ [mkDelivery (socket_id client) (joined_package packageId)])
            ++ deliver (presence (userId client) "joined" (now w))
                 (elements (joined ∖ {[socket_id client]})))
           (set_rooms (<[room := joined]> (rooms w)) w))
    end.
Proof.
  unfold PermitWebSocketGateway.handleJoinPackage, try_catch.
  unfold permitPackage.findFirst, client_join, client_emit, client_to_emit.
  unfold bind, read_db, ret, new_Date.
  destruct (List.find _ _); [|reflexivity].
  destruct w as [d t fs g k rm ob]. unfold members. simpl.
  rewrite lookup_insert_eq. reflexivity.
Qed.

(** X1: A connection whose user created or last updated the package is put in
    the package's room; it alone gets the [joined-package] acknowledgement,
    and the [presence] event goes to the members that were there before,
    never to the joining connection. The store is not touched. *)
Theorem authorized_join_enters_room (packageId : string)
    (client : AuthenticatedSocket) (w : World) (p : PermitPackage) :
  List.find (PermitWebSocketGateway.may_join packageId (userId client))
    (permitPackages (db w)) = Some p ->
  let (r, w') := PermitWebSocketGateway.handleJoinPackage packageId client w in
  let room := PermitWebSocketGateway.room_of packageId in
  r = Ok tt
  /\ db w' = db w
  /\ members room w' = {[socket_id client]} ∪ members room w
  /\ emitted_since w w'
     = mkDelivery (socket_id client) (joined_package packageId)
       :: deliver (presence (userId client) "joined" (now w))
            (elements (members room w ∖ {[socket_id client]})).
Proof.
  intros Hf. rewrite handleJoinPackage_effect, Hf. cbv zeta.
  split; [reflexivity|]. split; [reflexivity|].
  split; [apply members_insert_same|].
  rewrite join_then_others. apply emitted_since_app. simpl. now rewrite <- app_assoc.
Qed.

Lemma authorized_join_enters_room_witness :
  exists p : PermitPackage,
    List.find (PermitWebSocketGateway.may_join "id-0" (userId alice_socket))
      (permitPackages (db world_bob_joined)) = Some p
    /\ (let (r, w') :=
          PermitWebSocketGateway.handleJoinPackage "id-0" alice_socket
            world_bob_joined in
        elements (members (PermitWebSocketGateway.room_of "id-0") w')
        = ["socket-alice"; "socket-bob"]
        /\ emitted_since world_bob_joined w'
           = [ mkDelivery "socket-alice" (joined_package "id-0");
               mkDelivery "socket-bob" (presence "alice" "joined" example_date) ]).
Proof.
  eassert (Hf : List.find
                  (PermitWebSocketGateway.may_join "id-0" (userId alice_socket))
                  (permitPackages (db world_bob_joined)) = Some _)
    by (vm_compute; reflexivity).
  eexists. split; [exact Hf|].
  pose proof (authorized_join_enters_room "id-0" alice_socket world_bob_joined
                _ Hf) as H.
  destruct (PermitWebSocketGateway.handleJoinPackage "id-0" alice_socket
              world_bob_joined) as [r w'].
  destruct H as (_ & _ & Hm & He). rewrite Hm, He.
  split; vm_compute; reflexivity.
Defined.

Lemma handleLeavePackage_effect (packageId : string)
    (client : AuthenticatedSocket) (w : World) :
  PermitWebSocketGateway.handleLeavePackage packageId client w
  = let room := PermitWebSocketGateway.room_of packageId in
    let left := members room w ∖ {[socket_id client]} in
    (Ok tt,
     set_outbox
       ((outbox w ++ [mkDelivery (socket_id client) (left_package packageId)])
        ++ deliver (presence (userId client) "left" (now w))
             (elements (left ∖ {[socket_id client]})))
       (set_rooms (<[room := left]> (rooms w)) w)).
Proof.
  unfold PermitWebSocketGateway.handleLeavePackage.
  unfold client_leave, client_emit, client_to_emit.
  unfold bind, ret, new_Date.
  destruct w as [d t fs g k rm ob]. unfold members. simpl.
  rewrite lookup_insert_eq. reflexivity.
Qed.

Lemma difference_twice (c : string) (m : gset string) :
  (m ∖ {[c]}) ∖ {[c]} = m ∖ {[c]}.
Proof.
  apply set_eq. intros x.
  rewrite !elem_of_difference, elem_of_singleton. tauto.
Qed.

Lemma not_recipient_of_broadcast (packageId : string) (c : string)
    (ev : Event) (w : World) :
  c ∉ members (PermitWebSocketGateway.room_of packageId) w ->
  Forall (fun d => recipient d <> c)
    (emitted_since w
       (snd (PermitWebSocketGateway.emitToPackage packageId ev w))).
Proof.
  intros Hnot.
  change (Forall (fun d => recipient d <> c)
            (emitted_since w
               (snd (server_to_emit (PermitWebSocketGateway.room_of packageId)
                       ev w)))).
  rewrite broadcast_recipients. unfold deliver.
  apply Forall_fmap, Forall_forall. intros sid Hin. simpl. intros ->.
  apply elem_of_elements in Hin. now apply Hnot.
Qed.

(** X2: [leave-package] asks for no authorization and no membership: whoever
    sends it is out of the room afterwards, gets the [left-package]
    acknowledgement, and the [presence] event goes to the members that
    remain. The next broadcast to the room does not reach the connection.
    The store is not touched. *)
Theorem leave_removes_from_room (packageId : string)
    (client : AuthenticatedSocket) (w : World) :
  let (r, w') := PermitWebSocketGateway.handleLeavePackage packageId client w in
  let room := PermitWebSocketGateway.room_of packageId in
  r = Ok tt
  /\ db w' = db w
  /\ members room w' = members room w ∖ {[socket_id client]}
  /\ (socket_id client ∉ members room w')
  /\ emitted_since w w'
     = mkDelivery (socket_id client) (left_package packageId)
       :: deliver (presence (userId client) "left" (now w))
            (elements (members room w ∖ {[socket_id client]}))
  /\ forall ev : Event,
       Forall (fun d => recipient d <> socket_id client)
         (emitted_since w'
            (snd (PermitWebSocketGateway.emitToPackage packageId ev w'))).
Proof.
  rewrite handleLeavePackage_effect. cbv zeta.
  assert (Hm : members (PermitWebSocketGateway.room_of packageId)
                 (set_outbox
                    ((outbox w
                      ++ [mkDelivery (socket_id client) (left_package packageId)])
                     ++ deliver (presence (userId client) "left" (now w))
                          (elements
                             ((members (PermitWebSocketGateway.room_of packageId) w
                               ∖ {[socket_id client]}) ∖ {[socket_id client]})))
                    (set_rooms
                       (<[PermitWebSocketGateway.room_of packageId :=
                            members (PermitWebSocketGateway.room_of packageId) w
                            ∖ {[socket_id client]}]> (rooms w)) w))
               = members (PermitWebSocketGateway.room_of packageId) w
                 ∖ {[socket_id client]}).
  { unfold members. simpl. now rewrite lookup_insert_eq. }
  assert (Hnot : socket_id client
                 ∉ members (PermitWebSocketGateway.room_of packageId) w
                   ∖ {[socket_id client]}).
  { rewrite elem_of_difference, elem_of_singleton. tauto. }
  split; [reflexivity|]. split; [reflexivity|].
  split; [exact Hm|]. split; [rewrite Hm; exact Hnot|].
  split.
  - rewrite difference_twice. apply emitted_since_app. simpl.
    now rewrite <- app_assoc.
  - intros ev. apply not_recipient_of_broadcast. rewrite Hm. exact Hnot.
Qed.

(** X3: Rooms are kept apart: a join or a leave for one package leaves the
    membership of every other package's room as it was, so a connection can
    sit in several rooms at once. *)
Theorem join_and_leave_keep_other_rooms (packageId other : string)
    (client : AuthenticatedSocket) (w : World) :
  other <> packageId ->
  members (PermitWebSocketGateway.room_of other)
    (snd (PermitWebSocketGateway.handleJoinPackage packageId client w))
  = members (PermitWebSocketGateway.room_of other) w
  /\ members (PermitWebSocketGateway.room_of other)
       (snd (PermitWebSocketGateway.handleLeavePackage packageId client w))
     = members (PermitWebSocketGateway.room_of other) w.
Proof.
  intros Hne.
  assert (Hr : PermitWebSocketGateway.room_of packageId
               <> PermitWebSocketGateway.room_of other).
  { intros E. apply room_of_inj in E. congruence. }
  split.
  - rewrite handleJoinPackage_effect.
    destruct (List.find _ _); [|reflexivity].
    unfold members. simpl. now rewrite lookup_insert_ne.
  - rewrite handleLeavePackage_effect.
    unfold members. simpl. now rewrite lookup_insert_ne.
Qed.

Lemma join_and_leave_keep_other_rooms_witness :
  members (PermitWebSocketGateway.room_of "id-0")
    (snd (PermitWebSocketGateway.handleJoinPackage "id-7" bob_socket
            world_bob_joined))
  = members (PermitWebSocketGateway.room_of "id-0") world_bob_joined
  /\ members (PermitWebSocketGateway.room_of "id-0")
       (snd (PermitWebSocketGateway.handleLeavePackage "id-7" bob_socket
               world_bob_joined))
     = members (PermitWebSocketGateway.room_of "id-0") world_bob_joined.
Proof.
  apply (join_and_leave_keep_other_rooms "id-7" "id-0" bob_socket
           world_bob_joined).
  discriminate.
Defined.

(** A broadcast to a package's room puts exactly one delivery on the wire
    for each member of that room and none for anybody else; it changes
    neither the store nor any room. *)
Theorem broadcast_reaches_exactly_the_room (packageId : string) (ev : Event)
    (w : World) :
  let (r, w') := PermitWebSocketGateway.emitToPackage packageId ev w in
  let sent := emitted_since w w' in
  r = Ok tt
  /\ db w' = db w
  /\ rooms w' = rooms w
  /\ Forall (fun d => event d = ev) sent
  /\ NoDup (map recipient sent)
  /\ forall sid : string,
       sid ∈ map recipient sent
       <-> sid ∈ members (PermitWebSocketGateway.room_of packageId) w.
Proof.
  unfold PermitWebSocketGateway.emitToPackage, server_to_emit. cbv zeta.
  rewrite (emitted_since_app w
             (set_outbox
                (outbox w
                 ++ deliver ev
                      (elements
                         (members (PermitWebSocketGateway.room_of packageId) w)))
                w)
             (deliver ev
                (elements
                   (members (PermitWebSocketGateway.room_of packageId) w)))
             eq_refl).
  assert (Hrec : forall l : list string, map recipient (deliver ev l) = l).
  { unfold deliver. induction l as [|a l IH]; simpl; congruence. }
  split; [reflexivity|]. split; [reflexivity|]. split; [reflexivity|].
  split.
  - unfold deliver. apply Forall_fmap, Forall_forall. reflexivity.
  - rewrite Hrec. split; [apply NoDup_elements|].
    intros sid. apply elem_of_elements.
Qed.

(** X5: Joining and then leaving a room gives back the membership there was,
    for a connection that was not in the room to begin with (whether or not
    the join was granted). *)
Theorem join_then_leave_restores_room (packageId : string)
    (client : AuthenticatedSocket) (w : World) :
  (socket_id client ∉ members (PermitWebSocketGateway.room_of packageId) w) ->
  members (PermitWebSocketGateway.room_of packageId)
    (snd (PermitWebSocketGateway.handleLeavePackage packageId client
            (snd (PermitWebSocketGateway.handleJoinPackage packageId client w))))
  = members (PermitWebSocketGateway.room_of packageId) w.
Proof.
  intros Hnot.
  assert (Hout : forall m : gset string, socket_id client ∉ m ->
                 m ∖ {[socket_id client]} = m).
  { intros m Hm. apply set_eq. intros x.
    rewrite elem_of_difference, elem_of_singleton.
    split; [tauto|]. intros Hx. split; [exact Hx|]. now intros ->. }
  rewrite handleLeavePackage_effect, handleJoinPackage_effect. cbv zeta.
  destruct (List.find _ _); unfold members; simpl;
    rewrite lookup_insert_eq; simpl.
  - rewrite lookup_insert_eq. simpl.
    fold (members (PermitWebSocketGateway.room_of packageId) w).
    rewrite join_then_others. now apply Hout.
  - fold (members (PermitWebSocketGateway.room_of packageId) w).
    now apply Hout.
Qed.

Lemma join_then_leave_restores_room_witness :
  (socket_id carol_socket
   ∉ members (PermitWebSocketGateway.room_of "id-0") world_bob_joined)
  /\ elements
       (members (PermitWebSocketGateway.room_of "id-0")
          (snd (PermitWebSocketGateway.handleLeavePackage "id-0" carol_socket
                  (snd (PermitWebSocketGateway.handleJoinPackage "id-0"
                          carol_socket world_bob_joined)))))
     = ["socket-bob"].
Proof.
  assert (Hn : socket_id carol_socket
               ∉ members (PermitWebSocketGateway.room_of "id-0")
                   world_bob_joined).
  { apply (bool_decide_unpack _). vm_compute. exact I. }
  split; [exact Hn|].
  rewrite (join_then_leave_restores_room "id-0" carol_socket world_bob_joined Hn).
  vm_compute. reflexivity.
Defined.

(** ** Who may join *)

Lemma existsb_may_join_updater (id u : string) (st : PackageStatus)
    (l : list PermitPackage) :
  existsb (has_pkg_id id) l = true ->
  existsb (PermitWebSocketGateway.may_join id u)
    (map (fun q => if has_pkg_id id q
                   then PackagesService.set_status st u q else q) l)
  = true.
Proof.
  induction l as [|a l IH]; simpl; [discriminate|].
  destruct (has_pkg_id id a) eqn:E; simpl.
  - intros _. unfold PermitWebSocketGateway.may_join, has_pkg_id in *. simpl.
    now rewrite E, String.eqb_refl, orb_true_r.
  - intros H. rewrite (IH H). apply orb_true_r.
Qed.

Lemma find_may_join_stranger (id u v : string) (st : PackageStatus)
    (l : list PermitPackage) :
  v <> u ->
  Forall (fun p => pkg_id p = id -> pkg_createdById p <> v) l ->
  List.find (PermitWebSocketGateway.may_join id v)
    (map (fun q => if has_pkg_id id q
                   then PackagesService.set_status st u q else q) l)
  = None.
Proof.
  intros Hne Hall. induction Hall as [|a l Ha _ IH]; simpl; [reflexivity|].
  destruct (has_pkg_id id a) eqn:E.
  - unfold PermitWebSocketGateway.may_join, has_pkg_id in *. simpl. rewrite E.
    apply String.eqb_eq in E. specialize (Ha E).
    apply String.eqb_neq in Ha. rewrite Ha.
    assert (Hu : String.eqb u v = false)
      by (apply String.eqb_neq; congruence).
    rewrite Hu. simpl. exact IH.
  - unfold PermitWebSocketGateway.may_join. rewrite E. simpl. exact IH.
Qed.

Lemma granted_join_is_member (packageId : string)
    (client : AuthenticatedSocket) (w : World) :
  existsb (PermitWebSocketGateway.may_join packageId (userId client))
    (permitPackages (db w)) = true ->
  socket_id client
  ∈ members (PermitWebSocketGateway.room_of packageId)
      (snd (PermitWebSocketGateway.handleJoinPackage packageId client w)).
Proof.
  rewrite existsb_find, handleJoinPackage_effect.
  destruct (List.find _ _); [intros _|discriminate].
  unfold members. simpl. rewrite lookup_insert_eq. simpl.
  apply elem_of_union_l, elem_of_singleton. reflexivity.
Qed.

(** X6: The right to join follows the last updater. After a successful
    [updateStatus] by user [u], which asks nothing about who [u] is, every
    connection of [u] is admitted to the package's room, and a connection of
    any other user who did not create the package is refused, the previous
    updater included. *)
Theorem updateStatus_moves_the_right_to_join (id : string)
    (st : PackageStatus) (u : string) (n : option string) (w w' : World)
    (r : PermitPackage * StatusLog) :
  PackagesService.updateStatus id st u n w = (Ok r, w') ->
  (forall client : AuthenticatedSocket,
     userId client = u ->
     socket_id client
     ∈ members (PermitWebSocketGateway.room_of id)
         (snd (PermitWebSocketGateway.handleJoinPackage id client w')))
  /\ (forall client : AuthenticatedSocket,
        userId client <> u ->
        Forall (fun p => pkg_id p = id -> pkg_createdById p <> userId client)
          (permitPackages (db w)) ->
        let (_, w'') := PermitWebSocketGateway.handleJoinPackage id client w' in
        rooms w'' = rooms w'
        /\ emitted_since w' w''
           = [mkDelivery (socket_id client)
                (error "Access denied to this package")]).
Proof.
  intros E. apply updateStatus_Ok in E as (Hex & Hp & _). split.
  - intros client <-. apply granted_join_is_member. rewrite Hp.
    now apply existsb_may_join_updater.
  - intros client Hne Hall. rewrite handleJoinPackage_effect, Hp.
    rewrite (find_may_join_stranger id u (userId client) st _ Hne Hall).
    split; [reflexivity|]. now apply emitted_since_app.
Qed.

Lemma updateStatus_moves_the_right_to_join_witness :
  exists (r : PermitPackage * StatusLog) (w' : World),
    PackagesService.updateStatus "id-0" SUBMITTED "carol" None world_bob_joined
    = (Ok r, w')
    /\ (socket_id carol_socket
        ∈ members (PermitWebSocketGateway.room_of "id-0")
            (snd (PermitWebSocketGateway.handleJoinPackage "id-0" carol_socket w')))
    /\ (let (_, w'') :=
          PermitWebSocketGateway.handleJoinPackage "id-0" bob_socket w' in
        emitted_since w' w''
        = [mkDelivery "socket-bob" (error "Access denied to this package")]).
Proof.
  eassert (E : PackagesService.updateStatus "id-0" SUBMITTED "carol" None
                 world_bob_joined = (Ok _, _)) by (vm_compute; reflexivity).
  destruct (updateStatus_moves_the_right_to_join _ _ _ _ _ _ _ E) as [A B].
  eexists _, _. split; [exact E|]. split.
  - apply (A carol_socket). reflexivity.
  - specialize (B bob_socket).
    destruct (PermitWebSocketGateway.handleJoinPackage "id-0" bob_socket _)
      as [r'' w''].
    apply B; [discriminate|].
    vm_compute. repeat constructor; discriminate.
Defined.

Lemma handleUpdateStatus_packages (accepts : string -> option PackageStatus)
    (packageId status : string)
    (s : PackageStatus) (note : option string)
    (client : AuthenticatedSocket) (w : World) :
  accepts status = Some s ->
  fault_at 0 w = false ->
  permitPackages
    (db (snd (PermitWebSocketGateway.handleUpdateStatus accepts packageId
                status note client w)))
  = map (fun q => if has_pkg_id packageId q
                  then PackagesService.set_status s (userId client) q else q)
      (permitPackages (db w)).
Proof.
  intros Hs Hf0.
  unfold PermitWebSocketGateway.handleUpdateStatus, try_catch. rewrite Hs.
  unfold permitPackage.update, statusLog.create, server_to_emit, client_emit.
  unfold fault_at in Hf0. unfold_store.
  destruct w as [d t fs g k rm ob]; simpl in *.
  assert (Hmap : List.find (has_pkg_id packageId) (permitPackages d) = None ->
                 map (fun q => if has_pkg_id packageId q
                               then PackagesService.set_status s (userId client) q
                               else q) (permitPackages d)
                 = permitPackages d).
  { generalize (permitPackages d). induction l as [|a l IH]; simpl;
      [reflexivity|].
    destruct (has_pkg_id packageId a); [discriminate|].
    intros H. now rewrite IH. }
  destruct (List.find (has_pkg_id packageId) (permitPackages d)) as [p|] eqn:Hp.
  - assert (Hex : existsb (has_pkg_id packageId) (permitPackages d) = true)
      by (rewrite existsb_find, Hp; reflexivity).
    destruct fs as [|[] [|[] fs]]; try discriminate;
      repeat (progress (simpl; rewrite ?Hp, ?existsb_set_status, ?Hex));
      destruct (existsb (has_log_id (g k)) (statusLogs d));
      repeat (progress (simpl; rewrite ?Hp, ?existsb_set_status, ?Hex));
      reflexivity.
  - rewrite (Hmap eq_refl).
    destruct fs as [|[] fs]; try discriminate; simpl; rewrite ?Hp; reflexivity.
Qed.

(** X7: The [update-status] handler checks neither room membership nor the
    caller's relation to the package. For every status string that the
    validation accepts, any authenticated connection changes the status of
    any stored package when the store accepts the update; the caller is then
    stored as the package's updater, and so its next [join-package] is
    granted. *)
Theorem update_status_over_socket_grants_join
    (accepts : string -> option PackageStatus) (packageId status : string)
    (s : PackageStatus) (note : option string)
    (client : AuthenticatedSocket) (w : World) :
  accepts status = Some s ->
  package_exists packageId (db w) = true ->
  fault_at 0 w = false ->
  let w1 :=
    snd (PermitWebSocketGateway.handleUpdateStatus accepts packageId status
           note client w) in
  status_of packageId (db w1) = Some s
  /\ option_map pkg_updatedById
       (List.find (has_pkg_id packageId) (permitPackages (db w1)))
     = Some (Some (userId client))
  /\ (socket_id client
      ∈ members (PermitWebSocketGateway.room_of packageId)
          (snd (PermitWebSocketGateway.handleJoinPackage packageId client w1))).
Proof.
  intros Hs Hex Hf0. cbv zeta.
  pose proof (handleUpdateStatus_packages accepts packageId status s note
                client w Hs Hf0) as Hp.
  split; [|split].
  - unfold status_of. rewrite Hp. now apply status_of_set_status.
  - rewrite Hp, find_set_status_same.
    unfold package_exists in Hex. rewrite existsb_find in Hex.
    destruct (List.find _ _); [reflexivity|discriminate].
  - apply granted_join_is_member. rewrite Hp.
    now apply existsb_may_join_updater.
Qed.

Lemma update_status_over_socket_grants_join_witness :
  List.find (PermitWebSocketGateway.may_join "id-0" (userId carol_socket))
    (permitPackages (db world_bob_joined)) = None
  /\ (let w1 :=
        snd (PermitWebSocketGateway.handleUpdateStatus PackageStatus_of_string
               "id-0" "UNDER_REVIEW" None carol_socket world_bob_joined) in
      status_of "id-0" (db w1) = Some UNDER_REVIEW
      /\ option_map pkg_updatedById
           (List.find (has_pkg_id "id-0") (permitPackages (db w1)))
         = Some (Some "carol")
      /\ (socket_id carol_socket
          ∈ members (PermitWebSocketGateway.room_of "id-0")
              (snd (PermitWebSocketGateway.handleJoinPackage "id-0"
                      carol_socket w1)))).
Proof.
  split; [vm_compute; reflexivity|].
  apply (update_status_over_socket_grants_join PackageStatus_of_string "id-0"
           "UNDER_REVIEW" UNDER_REVIEW None carol_socket world_bob_joined);
    vm_compute; reflexivity.
Defined.

(** X8: The real-time toggle leaves the store exactly as the REST operation
    [updateChecklistItem] without notes does, on every input. The package id
    of the request plays no part in the write: it only names the room that
    hears about it. *)
Theorem socket_toggle_writes_like_rest (packageId itemId : string)
    (c : bool) (client : AuthenticatedSocket) (w : World) :
  db (snd (PermitWebSocketGateway.handleToggleChecklistItem packageId itemId c
             client w))
  = db (snd (PackagesService.updateChecklistItem itemId c None w)).
Proof.
  rewrite updateChecklistItem_effect.
  unfold PermitWebSocketGateway.handleToggleChecklistItem, try_catch.
  unfold packageChecklistItem.update, server_to_emit, client_emit, fault_at.
  unfold_store.
  destruct w as [d t fs g k rm ob]; simpl.
  destruct (List.find (has_item_id itemId) (packageChecklistItems d)) eqn:Hf;
    destruct fs as [|[] fs]; simpl; rewrite ?Hf; reflexivity.
Qed.

(** ** The connection registry *)

Lemma starts_with_has_char (c : ascii) (p : string) :
  forall s : string,
  starts_with p s = true -> has_char c p = true -> has_char c s = true.
Proof.
  induction p as [|a p IH]; simpl; intros s Hs Hc; [discriminate|].
  destruct s as [|b s]; [discriminate|]. simpl.
  apply andb_true_iff in Hs as [Hab Hs]. apply Ascii.eqb_eq in Hab as ->.
  apply orb_true_iff in Hc as [Hc|Hc].
  - now rewrite Hc.
  - rewrite (IH s Hs Hc). apply orb_true_r.
Qed.

Lemma replace_first_absent (t : string) :
  has_char " " t = false -> replace_first "Bearer " "" t = t.
Proof.
  induction t as [|a t IH]; intros Hc; [reflexivity|].
  cbn [replace_first].
  destruct (starts_with "Bearer " (String a t)) eqn:Hs.
  - rewrite (starts_with_has_char " " "Bearer " _ Hs eq_refl) in Hc.
    discriminate.
  - simpl in Hc. apply orb_false_iff in Hc as [_ Hc]. now rewrite IH.
Qed.

Lemma handleConnection_auth_token (verify : string -> option JwtPayload)
    (sid tok : string) (a h : option string) (users : gmap string string) :
  truthy (Some tok) = true ->
  GatewayRegistry.handleConnection verify
    (mkRawSocket sid (mkHandshake (Some tok) a h)) users
  = match verify (replace_first "Bearer " "" tok) with
    | Some payload =>
        (Some (mkSocket sid (jwt_sub payload) (jwt_role payload)),
         <[jwt_sub payload := sid]> users)
    | None => (None, users)
    end.
Proof.
  intros Ht. unfold GatewayRegistry.handleConnection, js_or.
  cbn [handshake auth_token]. rewrite Ht. cbn [negb]. rewrite Ht.
  reflexivity.
Qed.

(** X9: A token may come with or without the prefix "Bearer ": for a token
    without a space, as every JWT is, both spellings in [auth.token] are
    accepted exactly when the bare token verifies, whatever the other two
    credential places hold; the user is then bound to the socket and
    registered under the socket's id. *)
Theorem bearer_prefix_is_optional (verify : string -> option JwtPayload)
    (sid t : string) (a h : option string) (users : gmap string string) :
  t <> "" ->
  has_char " " t = false ->
  let outcome :=
    match verify t with
    | Some payload =>
        (Some (mkSocket sid (jwt_sub payload) (jwt_role payload)),
         <[jwt_sub payload := sid]> users)
    | None => (None, users)
    end in
  GatewayRegistry.handleConnection verify
    (mkRawSocket sid (mkHandshake (Some ("Bearer " +:+ t)) a h)) users
  = outcome
  /\ GatewayRegistry.handleConnection verify
       (mkRawSocket sid (mkHandshake (Some t) a h)) users
     = outcome.
Proof.
  intros Hne Hc. cbv zeta.
  destruct t as [|c0 t0]; [congruence|].
  rewrite !handleConnection_auth_token by reflexivity.
  rewrite (replace_first_absent _ Hc).
  replace (replace_first "Bearer " "" ("Bearer " +:+ String c0 t0))
    with (String c0 t0) by reflexivity.
  split; reflexivity.
Qed.

Lemma bearer_prefix_is_optional_witness :
  GatewayRegistry.handleConnection example_verify alice_first ∅
  = (Some (mkSocket "socket-a1" "alice" "USER"), {["alice" := "socket-a1"]})
  /\ GatewayRegistry.handleConnection example_verify
       (mkRawSocket "socket-a1" (mkHandshake (Some "token-alice-1") None None)) ∅
     = (Some (mkSocket "socket-a1" "alice" "USER"), {["alice" := "socket-a1"]}).
Proof.
  apply (bearer_prefix_is_optional example_verify "socket-a1" "token-alice-1"
           None None ∅); [discriminate|reflexivity].
Defined.

Lemma handleConnection_Some (verify : string -> option JwtPayload)
    (client : Socket) (users users' : gmap string string)
    (a : AuthenticatedSocket) :
  GatewayRegistry.handleConnection verify client users = (Some a, users') ->
  socket_id a = raw_id client /\ users' = <[userId a := raw_id client]> users.
Proof.
  unfold GatewayRegistry.handleConnection.
  destruct (negb (truthy _)); [discriminate|].
  destruct (verify _) as [payload|]; [|discriminate].
  intros H. injection H as <- <-. split; reflexivity.
Qed.

(** X10: [connectedUsers] holds one socket per user. When a user connects twice
    the later socket takes the entry; when the earlier socket then
    disconnects the entry is deleted by user id, so [emitToUser] delivers
    nothing to that user although the later socket is still connected. *)
Theorem disconnect_of_older_socket_forgets_user
    (verify : string -> option JwtPayload) (c1 c2 : Socket)
    (users users1 users2 : gmap string string) (a1 a2 : AuthenticatedSocket) :
  GatewayRegistry.handleConnection verify c1 users = (Some a1, users1) ->
  GatewayRegistry.handleConnection verify c2 users1 = (Some a2, users2) ->
  userId a2 = userId a1 ->
  userId a1 <> "" ->
  users1 !! userId a1 = Some (raw_id c1)
  /\ users2 !! userId a1 = Some (raw_id c2)
  /\ GatewayRegistry.handleDisconnect a1 users2 !! userId a1 = None
  /\ forall (ev : Event) (w : World),
       GatewayRegistry.emitToUser (GatewayRegistry.handleDisconnect a1 users2)
         (userId a1) ev w
       = (Ok tt, w).
Proof.
  intros H1 H2 Hsame Hne.
  apply handleConnection_Some in H1 as [_ ->].
  apply handleConnection_Some in H2 as [_ ->]. rewrite Hsame.
  assert (Hd : GatewayRegistry.handleDisconnect a1
                 (<[userId a1 := raw_id c2]>
                    (<[userId a1 := raw_id c1]> users)) !! userId a1 = None).
  { unfold GatewayRegistry.handleDisconnect.
    destruct (userId a1) as [|c0 u0] eqn:Hu; [congruence|]. simpl.
    apply lookup_delete_eq. }
  split; [apply lookup_insert_eq|]. split; [apply lookup_insert_eq|].
  split; [exact Hd|].
  intros ev w. unfold GatewayRegistry.emitToUser. now rewrite Hd.
Qed.

Lemma disconnect_of_older_socket_forgets_user_witness :
  exists (a1 a2 : AuthenticatedSocket) (users1 users2 : gmap string string),
    GatewayRegistry.handleConnection example_verify alice_first ∅
    = (Some a1, users1)
    /\ GatewayRegistry.handleConnection example_verify alice_second users1
       = (Some a2, users2)
    /\ users2 !! "alice" = Some "socket-a2"
    /\ GatewayRegistry.handleDisconnect a1 users2 !! "alice" = None.
Proof.
  eassert (H1 : GatewayRegistry.handleConnection example_verify alice_first ∅
                = (Some _, _)) by reflexivity.
  eassert (H2 : GatewayRegistry.handleConnection example_verify alice_second _
                = (Some _, _)) by reflexivity.
  destruct (disconnect_of_older_socket_forgets_user _ _ _ _ _ _ _ _ H1 H2
              eq_refl) as (_ & Hlast & Hgone & _); [discriminate|].
  eexists _, _, _, _. split; [exact H1|]. split; [exact H2|].
  split; [exact Hlast|exact Hgone].
Defined.

(** X11: [emitToUser] puts the event in the room named after the socket that is
    registered for the user: when that socket sits alone in its own room, as
    socket.io arranges on connection, it gets exactly one delivery; for a
    user without an entry nothing is sent. *)
Theorem emitToUser_reaches_registered_socket (users : gmap string string)
    (user : string) (ev : Event) (w : World) :
  let (r, w') := GatewayRegistry.emitToUser users user ev w in
  r = Ok tt
  /\ db w' = db w
  /\ rooms w' = rooms w
  /\ match users !! user with
     | None => w' = w
     | Some sid =>
         sid <> "" ->
         members sid w = {[sid]} ->
         emitted_since w w' = [mkDelivery sid ev]
     end.
Proof.
  unfold GatewayRegistry.emitToUser.
  destruct (users !! user) as [sid|] eqn:Hu; simpl.
  - destruct sid as [|c0 s0]; simpl.
    + repeat split; try reflexivity. congruence.
    + unfold server_to_emit. repeat split; try reflexivity.
      intros _ Hm. apply emitted_since_app. simpl. rewrite Hm.
      now rewrite elements_singleton.
  - repeat split; reflexivity.
Qed.

Lemma emitToUser_reaches_registered_socket_witness :
  let ev := status_updated "id-0" "APPROVED" None "bob" example_date in
  let (r, w') :=
    GatewayRegistry.emitToUser {["alice" := "socket-a2"]} "alice" ev
      world_alice_connected in
  emitted_since world_alice_connected w' = [mkDelivery "socket-a2" ev].
Proof.
  cbv zeta.
  pose proof (emitToUser_reaches_registered_socket {["alice" := "socket-a2"]}
                "alice"
                (status_updated "id-0" "APPROVED" None "bob" example_date)
                world_alice_connected) as H.
  destruct (GatewayRegistry.emitToUser _ _ _ _) as [r w'].
  destruct H as (_ & _ & _ & H).
  change ({["alice" := "socket-a2"]} !! "alice") with (Some "socket-a2") in H.
  apply H; [discriminate|]. vm_compute. reflexivity.
Defined.

(** ** Reading a checklist *)

Lemma sort_le_total : Total PackagesQueries.sort_le.
Proof. intros i j. unfold PackagesQueries.sort_le. lia. Qed.

Lemma sort_le_trans : Transitive PackagesQueries.sort_le.
Proof. intros i j k. unfold PackagesQueries.sort_le. lia. Qed.

(** X12: [getChecklistItems] changes nothing. For a stored package it returns the
    checklist rows of that package, all of them and no others, arranged so
    that every row's [sort] is at most that of each row after it; for an id
    that is not stored it signals NotFound. *)
Theorem getChecklistItems_sorted_checklist (packageId : string) (w : World) :
  let (r, w') := PackagesQueries.getChecklistItems packageId w in
  w' = w
  /\ if package_exists packageId (db w)
     then exists items : list PackageChecklistItem,
            r = Ok items
            /\ StronglySorted PackagesQueries.sort_le items
            /\ items ≡ₚ checklist_of packageId (db w)
     else r = Throw (NotFoundException "Permit package not found").
Proof.
  unfold PackagesQueries.getChecklistItems, permitPackage.findUnique.
  unfold package_exists. rewrite existsb_find.
  unfold bind, read_db, ret, throw.
  destruct (List.find (has_pkg_id packageId) (permitPackages (db w)))
    as [p|] eqn:Hf; (split; [reflexivity|]); [|reflexivity].
  apply find_has_pkg_id in Hf. rewrite Hf.
  eexists. split; [reflexivity|]. split.
  - apply (@StronglySorted_merge_sort _ PackagesQueries.sort_le _
             sort_le_trans sort_le_total).
  - apply merge_sort_Permutation.
Qed.

(** ** Package numbers across the store *)

Lemma numbered_in_numbers_in (year : nat) (d : Db) :
  numbered_in year d = length (numbers_in year d).
Proof. unfold numbered_in, numbers_in. now rewrite length_map. Qed.

Lemma create_appends_number (dto : CreatePackageDto) (u : string)
    (w w' : World) (p : PermitPackage) :
  PackagesService.create dto u w = (Ok p, w') ->
  numbers_in (getFullYear (now w)) (db w')
  = numbers_in (getFullYear (now w)) (db w) ++ [pkg_packageNumber p].
Proof.
  intros H. pose proof H as H'.
  apply numbered_in_after_create in H' as [Hn _].
  apply create_Ok in H as (_ & _ & Hpk & _).
  unfold numbers_in at 1. rewrite Hpk, List.filter_app, map_app. simpl.
  rewrite Hn at 1. unfold package_number at 1. rewrite prefix_append.
  reflexivity.
Qed.

Lemma serve_create_keeps_dense (year : nat) :
  forall (calls : list CreateCall) (w w' : World) (ns : list string),
  densely_numbered year (db w) ->
  Forall (fun c => getFullYear (create_at c) = year) calls ->
  serve_create calls w = (Some ns, w') ->
  densely_numbered year (db w')
  /\ numbers_in year (db w') = numbers_in year (db w) ++ ns.
Proof.
  induction calls as [|c calls IH]; simpl; intros w w' ns Hd Hy H.
  - injection H as <- <-. rewrite app_nil_r. auto.
  - apply Forall_cons in Hy as [Hc Hy].
    destruct (PackagesService.create _ _ _) as [[p|e] w1] eqn:E;
      [|discriminate].
    destruct (serve_create calls w1) as [[ns'|] w2] eqn:E'; [|discriminate].
    injection H as <- <-.
    pose proof (create_appends_number _ _ _ _ _ E) as Happ.
    apply numbered_in_after_create in E as [Hn Hcount].
    simpl in Happ, Hn, Hcount. rewrite Hc in Happ, Hn, Hcount.
    assert (Hd1 : densely_numbered year (db w1)).
    { unfold densely_numbered in *. rewrite Happ, Hcount, Hd, Hn.
      rewrite Nat.add_1_r, seq_S, map_app. reflexivity. }
    destruct (IH w1 w2 ns' Hd1 Hy E') as [Hd2 Hnum].
    split; [exact Hd2|]. rewrite Hnum, Happ, <- app_assoc. reflexivity.
Qed.

(** X13: On a store whose numbers for year Y are 1, 2, ..., n in order of
    creation (an empty store is one), creations served one after the other
    in year Y keep it so: the numbers handed out extend the stored ones, and
    all package numbers stored for Y stay pairwise distinct. *)
Theorem creations_keep_numbers_distinct (year : nat)
    (calls : list CreateCall) (w w' : World) (ns : list string) :
  densely_numbered year (db w) ->
  Forall (fun c => getFullYear (create_at c) = year) calls ->
  serve_create calls w = (Some ns, w') ->
  densely_numbered year (db w')
  /\ numbers_in year (db w') = numbers_in year (db w) ++ ns
  /\ NoDup (numbers_in year (db w')).
Proof.
  intros Hd Hy H.
  destruct (serve_create_keeps_dense year calls w w' ns Hd Hy H) as [Hd' Hn].
  split; [exact Hd'|]. split; [exact Hn|].
  rewrite Hd'.
  assert (Hinj : Inj (=) (=) (package_number year)).
  { intros n m. apply package_number_inj. }
  apply (NoDup_fmap_2 (package_number year)), NoDup_seq.
Qed.

Lemma creations_keep_numbers_distinct_witness :
  densely_numbered 2024 (db example_world)
  /\ Forall (fun c => getFullYear (create_at c) = 2024) example_creates
  /\ exists (ns : list string) (w' : World),
       serve_create example_creates example_world = (Some ns, w')
       /\ numbers_in 2024 (db w')
          = ["PKG-2024-0001"; "PKG-2024-0002"; "PKG-2024-0003"]
       /\ NoDup (numbers_in 2024 (db w')).
Proof.
  assert (Hd : densely_numbered 2024 (db example_world)) by reflexivity.
  assert (Hy : Forall (fun c => getFullYear (create_at c) = 2024)
                 example_creates) by (repeat constructor).
  split; [exact Hd|]. split; [exact Hy|].
  eassert (E : serve_create example_creates example_world = (Some _, _))
    by (vm_compute; reflexivity).
  destruct (creations_keep_numbers_distinct 2024 _ _ _ _ Hd Hy E)
    as (_ & _ & Hnd).
  eexists _, _. split; [exact E|]. split; [vm_compute; reflexivity|exact Hnd].
Defined.

(** ** createChecklistItems when a write is rejected *)

Lemma surviving_nil {A} (l : list A) : surviving [] l = l.
Proof. destruct l; reflexivity. Qed.

Lemma clone_all_faults (packageId : string) :
  forall (templateItems : list CountyChecklistTemplateItem) (w : World),
  package_exists packageId (db w) = true ->
  NoDup (map (uuid w) (seq (issued w) (length templateItems))) ->
  Forall (fun id => existsb (has_item_id id) (packageChecklistItems (db w)) = false)
    (map (uuid w) (seq (issued w) (length templateItems))) ->
  forall (r : Result (list PackageChecklistItem)) (w' : World),
  Promise_all
    (map (fun item =>
            packageChecklistItem.create
              (PackagesService.from_template packageId item))
       templateItems) w = (r, w') ->
  packageChecklistItems (db w')
  = packageChecklistItems (db w)
    ++ surviving (faults w)
         (zip_with (PackagesService.from_template packageId) templateItems
            (map (uuid w) (seq (issued w) (length templateItems))))
  /\ is_ok r = negb (existsb (fun f => f) (take (length templateItems) (faults w)))
  /\ permitPackages (db w') = permitPackages (db w)
  /\ statusLogs (db w') = statusLogs (db w).
Proof.
  induction templateItems as [|t ts IH]; simpl; intros w Hex Hnd Hfr r w' H.
  - injection H as <- <-. simpl. rewrite app_nil_r. auto.
  - rewrite item_create_effect in H. cbv zeta in H.
    apply NoDup_cons in Hnd as [Hnotin Hnd].
    apply Forall_cons in Hfr as [Hfr0 Hfr].
    rewrite Hfr0 in H. unfold package_exists in Hex. simpl in H.
    rewrite Hex in H. unfold fault_at in H.
    assert (Hrest : forall x : PackageChecklistItem,
              item_id x = uuid w (issued w) ->
              Forall (fun id =>
                        existsb (has_item_id id)
                          (packageChecklistItems (db w) ++ [x]) = false)
                (map (uuid w) (seq (S (issued w)) (length ts)))).
    { intros x Hx. revert Hnotin Hfr.
      generalize (map (uuid w) (seq (S (issued w)) (length ts))).
      intros ids Hnotin Hfr.
      induction Hfr as [|id ids Hid _ IHf]; constructor.
      - rewrite existsb_app, Hid. simpl. unfold has_item_id. rewrite Hx.
        rewrite orb_false_r. apply String.eqb_neq. intros <-.
        apply Hnotin. now left.
      - apply IHf. intros Hin. apply Hnotin. now right. }
    destruct (faults w) as [|[] fs] eqn:Hfs; simpl in H.
    + match type of H with
      | context [Promise_all ?ps ?w1] =>
          destruct (Promise_all ps w1) as [rs w2] eqn:E;
          specialize (IH w1)
      end.
      simpl in IH. rewrite ?Hfs in IH. simpl in IH.
      destruct (IH Hex Hnd
                  (Hrest (PackagesService.from_template packageId t
                            (uuid w (issued w))) eq_refl) rs w2 E) as (Hi & Hok & Hp & Hl).
      assert (w' = w2 /\ is_ok r = is_ok rs) as [-> Hr].
      { destruct rs; injection H as <- <-; split; reflexivity. }
      rewrite Hi, Hr, Hok, Hp, Hl, <- app_assoc, ?take_nil. simpl.
      rewrite ?take_nil, surviving_nil. auto.
    + match type of H with
      | context [Promise_all ?ps ?w1] =>
          destruct (Promise_all ps w1) as [rs w2] eqn:E;
          specialize (IH w1)
      end.
      simpl in IH. rewrite ?Hfs in IH. simpl in IH.
      destruct (IH Hex Hnd Hfr rs w2 E) as (Hi & Hok & Hp & Hl).
      injection H as <- <-. simpl. rewrite Hi, Hp, Hl. auto.
    + match type of H with
      | context [Promise_all ?ps ?w1] =>
          destruct (Promise_all ps w1) as [rs w2] eqn:E;
          specialize (IH w1)
      end.
      simpl in IH. rewrite ?Hfs in IH. simpl in IH.
      destruct (IH Hex Hnd
                  (Hrest (PackagesService.from_template packageId t
                            (uuid w (issued w))) eq_refl) rs w2 E) as (Hi & Hok & Hp & Hl).
      assert (w' = w2 /\ is_ok r = is_ok rs) as [-> Hr].
      { destruct rs; injection H as <- <-; split; reflexivity. }
      rewrite Hi, Hr, Hok, Hp, Hl, <- app_assoc. simpl. auto.
Qed.

(** X14: [createChecklistItems] keeps what it managed to write: every supplied
    row whose write the store accepts is stored, in order, also when the
    write of another row is rejected; the call itself succeeds exactly when
    none of the writes is rejected. *)
Theorem createChecklistItems_keeps_accepted_rows (packageId : string)
    (templateItems : list CountyChecklistTemplateItem) (w : World) :
  package_exists packageId (db w) = true ->
  let ids := map (uuid w) (seq (issued w) (length templateItems)) in
  NoDup ids ->
  Forall (fun id =>
            existsb (has_item_id id) (packageChecklistItems (db w)) = false)
    ids ->
  let (r, w') :=
    PackagesService.createChecklistItems packageId templateItems w in
  packageChecklistItems (db w')
  = packageChecklistItems (db w)
    ++ surviving (faults w)
         (zip_with (PackagesService.from_template packageId) templateItems ids)
  /\ is_ok r
     = negb (existsb (fun f => f) (take (length templateItems) (faults w))).
Proof.
  intros Hex ids Hnd Hfr.
  rewrite createChecklistItems_exists by exact Hex.
  destruct (Promise_all _ w) as [r w'] eqn:E.
  destruct (clone_all_faults packageId templateItems w Hex Hnd Hfr r w' E)
    as (Hi & Hok & _).
  split; assumption.
Qed.

Lemma createChecklistItems_keeps_accepted_rows_witness :
  let w := set_faults [false; true; false] world_after_create in
  let (r, w') :=
    PackagesService.createChecklistItems "id-0" example_templates w in
  is_ok r = false
  /\ map item_label (packageChecklistItems (db w'))
     = ["Site plan"; "Energy calculations"].
Proof.
  cbv zeta.
  assert (Hex : package_exists "id-0"
                  (db (set_faults [false; true; false] world_after_create))
                = true) by (vm_compute; reflexivity).
  pose proof (createChecklistItems_keeps_accepted_rows "id-0"
                example_templates
                (set_faults [false; true; false] world_after_create) Hex) as H.
  cbv zeta in H.
  destruct (PackagesService.createChecklistItems "id-0" example_templates
              (set_faults [false; true; false] world_after_create))
    as [r w'].
  destruct H as [Hi Hok].
  - apply (bool_decide_unpack _). vm_compute. exact I.
  - vm_compute. repeat constructor.
  - rewrite Hi, Hok. split; vm_compute; reflexivity.
Defined.

Lemma checklist_of_app_own (packageId : string) (d : Db)
    (new : list PackageChecklistItem) :
  Forall (fun i => item_packageId i = packageId) new ->
  List.filter (fun i => String.eqb (item_packageId i) packageId)
    (packageChecklistItems d ++ new)
  = checklist_of packageId d ++ new.
Proof.
  intros H. unfold checklist_of. rewrite List.filter_app. f_equal.
  induction H as [|i l Hi _ IH]; simpl; [reflexivity|].
  rewrite Hi, String.eqb_refl. now rewrite IH.
Qed.

Lemma cloned_for_package (packageId : string)
    (templateItems : list CountyChecklistTemplateItem) (ids : list string) :
  Forall (fun i => item_packageId i = packageId)
    (zip_with (PackagesService.from_template packageId) templateItems ids).
Proof.
  revert ids. induction templateItems as [|t ts IH]; intros [|id ids];
    simpl; constructor; [reflexivity|apply IH].
Qed.

(** X15: [createChecklistItems] has no guard against cloning twice: two
    successful calls with the same rows leave every row in the package's
    checklist twice. *)
Theorem createChecklistItems_twice_duplicates (packageId : string)
    (templateItems : list CountyChecklistTemplateItem) (w w1 w2 : World)
    (first second : list PackageChecklistItem) :
  PackagesService.createChecklistItems packageId templateItems w
  = (Ok first, w1) ->
  PackagesService.createChecklistItems packageId templateItems w1
  = (Ok second, w2) ->
  checklist_of packageId (db w2)
  = checklist_of packageId (db w) ++ first ++ second
  /\ map item_label first = map tpl_label templateItems
  /\ map item_label second = map tpl_label templateItems
  /\ length (checklist_of packageId (db w2))
     = length (checklist_of packageId (db w)) + 2 * length templateItems.
Proof.
  intros H1 H2.
  assert (Hex : forall w0 r w0',
            PackagesService.createChecklistItems packageId templateItems w0
            = (Ok r, w0') -> package_exists packageId (db w0) = true).
  { intros w0 r w0' H. destruct (package_exists packageId (db w0)) eqn:E;
      [reflexivity|].
    rewrite createChecklistItems_missing in H by exact E. discriminate. }
  pose proof (Hex _ _ _ H1) as Hex1. pose proof (Hex _ _ _ H2) as Hex2.
  rewrite createChecklistItems_exists in H1 by exact Hex1.
  rewrite createChecklistItems_exists in H2 by exact Hex2.
  apply clone_all_Ok in H1 as (Hf & Hi1 & _).
  apply clone_all_Ok in H2 as (Hs & Hi2 & _).
  assert (Hlabels : forall ids,
            length ids = length templateItems ->
            map item_label
              (zip_with (PackagesService.from_template packageId)
                 templateItems ids)
            = map tpl_label templateItems).
  { clear. induction templateItems as [|t ts IH]; intros [|id ids] Hl;
      simpl in *; try reflexivity; try discriminate.
    f_equal. apply IH. lia. }
  assert (Hlen : forall (g : nat -> string) (k : nat),
            length (map g (seq k (length templateItems)))
            = length templateItems).
  { intros g k. now rewrite length_map, length_seq. }
  assert (Hown1 : Forall (fun i => item_packageId i = packageId) first).
  { rewrite Hf. apply cloned_for_package. }
  assert (Hown2 : Forall (fun i => item_packageId i = packageId) second).
  { rewrite Hs. apply cloned_for_package. }
  assert (Hc : checklist_of packageId (db w2)
               = checklist_of packageId (db w) ++ first ++ second).
  { unfold checklist_of at 1. rewrite Hi2, checklist_of_app_own by exact Hown2.
    unfold checklist_of at 1. rewrite Hi1, checklist_of_app_own by exact Hown1.
    now rewrite <- app_assoc. }
  split; [exact Hc|].
  assert (L1 : map item_label first = map tpl_label templateItems).
  { rewrite Hf. apply Hlabels, Hlen. }
  assert (L2 : map item_label second = map tpl_label templateItems).
  { rewrite Hs. apply Hlabels, Hlen. }
  split; [exact L1|]. split; [exact L2|].
  rewrite Hc, !length_app.
  apply (f_equal length) in L1, L2. rewrite !length_map in L1, L2. lia.
Qed.

Lemma createChecklistItems_twice_duplicates_witness :
  exists (first second : list PackageChecklistItem) (w1 w2 : World),
    PackagesService.createChecklistItems "id-0" example_templates
      world_after_create = (Ok first, w1)
    /\ PackagesService.createChecklistItems "id-0" example_templates w1
       = (Ok second, w2)
    /\ map item_label (checklist_of "id-0" (db w2))
       = [ "Site plan"; "HUD label photo"; "Energy calculations";
           "Site plan"; "HUD label photo"; "Energy calculations" ].
Proof.
  eassert (H1 : PackagesService.createChecklistItems "id-0" example_templates
                  world_after_create = (Ok _, _)) by (vm_compute; reflexivity).
  match type of H1 with
  | _ = (_, ?w1) =>
      eassert (H2 : PackagesService.createChecklistItems "id-0"
                      example_templates w1 = (Ok _, _))
        by (vm_compute; reflexivity)
  end.
  destruct (createChecklistItems_twice_duplicates _ _ _ _ _ _ _ H1 H2)
    as (Hc & _).
  eexists _, _, _, _. split; [exact H1|]. split; [exact H2|].
  rewrite Hc. vm_compute. reflexivity.
Defined.

(** ** A toggle and the progress statistics *)

Lemma find_split {A} (f : A -> bool) (l : list A) (x : A) :
  List.find f l = Some x ->
  exists l1 l2, l = l1 ++ x :: l2 /\ f x = true
                /\ Forall (fun y => f y = false) l1.
Proof.
  induction l as [|a l IH]; simpl; [discriminate|].
  destruct (f a) eqn:E.
  - intros [= <-]. exists [], l. repeat split; [exact E|constructor].
  - intros H. destruct (IH H) as (l1 & l2 & -> & Hx & Hl1).
    exists (a :: l1), l2. repeat split; [exact Hx|now constructor].
Qed.

Lemma map_toggle_elsewhere (id : string)
    (f : PackageChecklistItem -> PackageChecklistItem)
    (l : list PackageChecklistItem) :
  Forall (fun j => has_item_id id j = false) l ->
  map (fun j => if has_item_id id j then f j else j) l = l.
Proof.
  induction 1 as [|j l Hj _ IH]; simpl; [reflexivity|].
  now rewrite Hj, IH.
Qed.

Lemma unique_id_after (id : string) (l1 l2 : list PackageChecklistItem)
    (i : PackageChecklistItem) :
  NoDup (map item_id (l1 ++ i :: l2)) ->
  has_item_id id i = true ->
  Forall (fun j => has_item_id id j = false) l2.
Proof.
  intros Hnd Hi. unfold has_item_id in *. apply String.eqb_eq in Hi.
  rewrite map_app in Hnd. apply NoDup_app in Hnd as (_ & _ & Hnd).
  simpl in Hnd. apply NoDup_cons in Hnd as [Hnotin _].
  apply Forall_forall. intros j Hj. apply String.eqb_neq. intros Hji.
  apply Hnotin. rewrite list_elem_of_fmap. exists j. split; [congruence|exact Hj].
Qed.

(** X16: Completing an item that was not completed moves the progress of its
    package by exactly that item, provided item ids are unique: [completed]
    grows by one, [requiredCompleted] grows by one when the item is required
    and stays otherwise, [total] and [required] stay; the checklists of the
    other packages are untouched. *)
Theorem completing_an_item_advances_progress (itemId : string)
    (notes : option string) (w : World) (i : PackageChecklistItem) :
  NoDup (map item_id (packageChecklistItems (db w))) ->
  List.find (has_item_id itemId) (packageChecklistItems (db w)) = Some i ->
  item_completed i = false ->
  fault_at 0 w = false ->
  let w' := snd (PackagesService.updateChecklistItem itemId true notes w) in
  let before :=
    ChecklistEditor.getProgressStats (checklist_of (item_packageId i) (db w)) in
  let after :=
    ChecklistEditor.getProgressStats (checklist_of (item_packageId i) (db w')) in
  ChecklistEditor.total after = ChecklistEditor.total before
  /\ ChecklistEditor.required after = ChecklistEditor.required before
  /\ ChecklistEditor.completed after = ChecklistEditor.completed before + 1
  /\ ChecklistEditor.requiredCompleted after
     = ChecklistEditor.requiredCompleted before
       + (if item_required i then 1 else 0)
  /\ forall other : string,
       other <> item_packageId i ->
       checklist_of other (db w') = checklist_of other (db w).
Proof.
  intros Hnd Hf Hc Hf0. cbv zeta.
  rewrite updateChecklistItem_effect, Hf, Hf0.
  unfold checklist_of. simpl.
  destruct (find_split _ _ _ Hf) as (l1 & l2 & Hl & Hi & Hl1).
  rewrite Hl in Hnd |- *.
  pose proof (unique_id_after itemId l1 l2 i Hnd Hi) as Hl2.
  set (f := PackagesService.set_completed true (Some (now w)) notes).
  assert (Hmap : map (fun j => if has_item_id itemId j then f j else j)
                   (l1 ++ i :: l2) = l1 ++ f i :: l2).
  { rewrite map_app. simpl. rewrite Hi.
    now rewrite !map_toggle_elsewhere by assumption. }
  rewrite Hmap, !List.filter_app. simpl. rewrite String.eqb_refl.
  repeat split.
  - rewrite !length_app. reflexivity.
  - rewrite !length_app. simpl. destruct (item_required i); reflexivity.
  - rewrite !length_app. simpl. rewrite Hc. simpl. lia.
  - rewrite !length_app. simpl. rewrite Hc.
    destruct (item_required i); simpl; lia.
  - intros other Hne. rewrite !List.filter_app. simpl.
    apply String.eqb_neq in Hne. rewrite String.eqb_sym in Hne.
    now rewrite Hne.
Qed.

Lemma completing_an_item_advances_progress_witness :
  let w' :=
    snd (PackagesService.updateChecklistItem "id-2" true None
           world_with_checklist) in
  let before :=
    ChecklistEditor.getProgressStats
      (checklist_of "id-0" (db world_with_checklist)) in
  let after := ChecklistEditor.getProgressStats (checklist_of "id-0" (db w')) in
  (ChecklistEditor.completed before, ChecklistEditor.requiredCompleted before)
  = (0, 0)
  /\ ChecklistEditor.completed after = 1
  /\ ChecklistEditor.requiredCompleted after = 1.
Proof.
  cbv zeta.
  eassert (Hf : List.find (has_item_id "id-2")
                  (packageChecklistItems (db world_with_checklist)) = Some _)
    by (vm_compute; reflexivity).
  assert (Hnd : NoDup (map item_id
                         (packageChecklistItems (db world_with_checklist)))).
  { apply (bool_decide_unpack _). vm_compute. exact I. }
  destruct (completing_an_item_advances_progress "id-2" None
              world_with_checklist _ Hnd Hf eq_refl eq_refl)
    as (_ & _ & Hc & Hrc & _).
  split; [vm_compute; reflexivity|].
  split; [exact Hc|exact Hrc].
Defined.

(** ** Grouping by category *)

Lemma groupByCategory_snoc (items : list PackageChecklistItem)
    (x : PackageChecklistItem) :
  ChecklistGroups.groupByCategory (items ++ [x])
  = ChecklistGroups.group_step (ChecklistGroups.groupByCategory items) x.
Proof. unfold ChecklistGroups.groupByCategory. now rewrite foldl_app. Qed.

(** X17: [groupByCategory] files every item under its category, or under
    "Other" when the category is empty, keeping the order of the items
    within each group; a category has a group exactly when some item bears
    it. The grouping breaks (a TypeError in the component) exactly when some
    item's category is the name of a property that plain objects inherit,
    such as "constructor". *)
Theorem groupByCategory_partitions (items : list PackageChecklistItem) :
  match ChecklistGroups.groupByCategory items with
  | Some groups =>
      Forall (fun i => ChecklistGroups.category_key i
                       ∉ ChecklistGroups.Object_prototype_keys) items
      /\ forall category : string,
           groups !! category
           = match List.filter
                     (fun i => String.eqb (ChecklistGroups.category_key i)
                                 category) items with
             | [] => None
             | l => Some l
             end
  | None =>
      Exists (fun i => ChecklistGroups.category_key i
                       ∈ ChecklistGroups.Object_prototype_keys) items
  end.
Proof.
  induction items as [|x items IH] using rev_ind.
  - simpl. split; [constructor|]. intros category. apply lookup_empty.
  - rewrite groupByCategory_snoc.
    destruct (ChecklistGroups.groupByCategory items) as [g|]; simpl.
    2:{ apply Exists_app. now left. }
    destruct IH as [Hall Hg].
    assert (Hstep : forall category : string,
                 <[ChecklistGroups.category_key x :=
                     List.filter
                       (fun i => String.eqb (ChecklistGroups.category_key i)
                                   (ChecklistGroups.category_key x)) items
                     ++ [x]]> g !! category
                 = match List.filter
                           (fun i => String.eqb (ChecklistGroups.category_key i)
                                       category) (items ++ [x]) with
                   | [] => None
                   | l => Some l
                   end).
    { intros category. rewrite List.filter_app. simpl.
      destruct (String.eqb_spec (ChecklistGroups.category_key x) category)
        as [<-|Hne].
      - rewrite lookup_insert_eq.
        destruct (List.filter _ items); reflexivity.
      - rewrite lookup_insert_ne by exact Hne. rewrite app_nil_r. apply Hg. }
    pose proof (Hg (ChecklistGroups.category_key x)) as Hx.
    destruct (g !! ChecklistGroups.category_key x) as [l|] eqn:El.
    + assert (Hl : l = List.filter
                         (fun i => String.eqb (ChecklistGroups.category_key i)
                                     (ChecklistGroups.category_key x)) items).
      { destruct (List.filter _ items); congruence. }
      split.
      * apply Forall_app. split; [exact Hall|]. constructor; [|constructor].
        assert (Hin : Exists (fun i => ChecklistGroups.category_key i
                                       = ChecklistGroups.category_key x) items).
        { destruct (List.filter _ items) as [|y ys] eqn:Ef; [discriminate|].
          assert (Hy : In y (List.filter
                               (fun i => String.eqb
                                           (ChecklistGroups.category_key i)
                                           (ChecklistGroups.category_key x))
                               items)) by (rewrite Ef; now left).
          apply filter_In in Hy as [Hy1 Hy2]. apply String.eqb_eq in Hy2.
          apply Exists_exists. exists y. split; [|exact Hy2].
          now apply list_elem_of_In. }
        apply Exists_exists in Hin as (y & Hy & Hkey). rewrite <- Hkey.
        rewrite Forall_forall in Hall. now apply Hall.
      * rewrite Hl. apply Hstep.
    + destruct (bool_decide_reflect
                  (ChecklistGroups.category_key x
                   ∈ ChecklistGroups.Object_prototype_keys)) as [Hp|Hp].
      * apply Exists_app. right. now constructor.
      * split.
        -- apply Forall_app. split; [exact Hall|]. now repeat constructor.
        -- assert (Hnil : List.filter
                            (fun i => String.eqb (ChecklistGroups.category_key i)
                                        (ChecklistGroups.category_key x)) items
                          = []).
           { destruct (List.filter _ items); [reflexivity|discriminate]. }
           intros category. rewrite <- (Hstep category), Hnil. reflexivity.
Qed.

(** ** What a status change and a creation leave behind *)

(** X18: [updateStatus] on one package, whatever its outcome, changes neither
    the status nor the audit trail of any other package, and it leaves every
    checklist as it was. *)
Theorem updateStatus_touches_one_package (id other : string)
    (st : PackageStatus) (u : string) (n : option string) (w : World) :
  other <> id ->
  let w' := snd (PackagesService.updateStatus id st u n w) in
  status_of other (db w') = status_of other (db w)
  /\ logs_of other (db w') = logs_of other (db w)
  /\ packageChecklistItems (db w') = packageChecklistItems (db w)
  /\ length (permitPackages (db w')) = length (permitPackages (db w)).
Proof.
  intros Hne. cbv zeta.
  destruct (package_exists id (db w)) eqn:Hex.
  - destruct (PackagesService.updateStatus id st u n w) as [r w'] eqn:E.
    destruct (updateStatus_effect id st u n w Hex r w' E)
      as (_ & Hp & Hl & Hi & _).
    simpl. unfold status_of, logs_of. rewrite Hp, Hl, Hi.
    repeat split.
    + destruct (fault_at 0 w); [reflexivity|].
      now rewrite find_set_status_other.
    + destruct (negb (fault_at 1 w) && fresh_log_id w); [|reflexivity].
      rewrite logs_of_snoc. simpl.
      apply String.eqb_neq in Hne. rewrite String.eqb_sym in Hne.
      rewrite Hne. apply app_nil_r.
    + destruct (fault_at 0 w); [reflexivity|]. apply length_map.
  - rewrite (updateStatus_missing id st u n w Hex). simpl. auto.
Qed.

Lemma updateStatus_touches_one_package_witness :
  let w' :=
    snd (PackagesService.updateStatus "id-0" APPROVED "bob" None
           world_after_create) in
  status_of "id-5" (db w') = status_of "id-5" (db world_after_create)
  /\ logs_of "id-5" (db w') = logs_of "id-5" (db world_after_create).
Proof.
  cbv zeta.
  destruct (updateStatus_touches_one_package "id-0" "id-5" APPROVED "bob" None
              world_after_create) as (Hs & Hl & _); [discriminate|].
  split; [exact Hs|exact Hl].
Defined.

(** X19: [create] writes the package and its first audit entry one after the
    other: when the store accepts the package and rejects the entry, the
    call fails and the package stays stored, in DRAFT, with no audit entry
    of its own. *)
Theorem create_can_leave_package_without_trail (dto : CreatePackageDto)
    (u : string) (w : World) :
  fk_ok (db w) ->
  package_exists (uuid w (issued w)) (db w) = false ->
  fault_at 0 w = false ->
  fault_at 1 w = true ->
  let (r, w') := PackagesService.create dto u w in
  let id := uuid w (issued w) in
  r = Throw (PrismaClientError "P1001")
  /\ status_of id (db w') = Some DRAFT
  /\ logs_of id (db w') = []
  /\ statusLogs (db w') = statusLogs (db w).
Proof.
  intros Hfk Hnew Hf0 Hf1.
  pose proof (logs_of_nil_of_fk _ _ Hfk Hnew) as Hnil.
  unfold PackagesService.create, PackagesService.generatePackageNumber.
  unfold permitPackage.count, permitPackage.create, statusLog.create.
  unfold package_exists, status_of, logs_of, fault_at in *.
  unfold_store.
  destruct w as [d t fs g k rm ob]; simpl in *.
  destruct fs as [|[] [|[] fs]]; try discriminate.
  simpl. rewrite Hnew. simpl.
  repeat split; try assumption.
  rewrite (find_snoc_fresh _ _ _ Hnew); [reflexivity|].
  unfold has_pkg_id. apply String.eqb_refl.
Qed.

Lemma create_can_leave_package_without_trail_witness :
  let (r, w') :=
    PackagesService.create example_dto "alice"
      (set_faults [false; true] example_world) in
  r = Throw (PrismaClientError "P1001")
  /\ status_of "id-0" (db w') = Some DRAFT
  /\ logs_of "id-0" (db w') = [].
Proof.
  pose proof (create_can_leave_package_without_trail example_dto "alice"
                (set_faults [false; true] example_world)) as H.
  destruct (PackagesService.create example_dto "alice"
              (set_faults [false; true] example_world)) as [r w'].
  destruct H as (Hr & Hs & Hl & _);
    [unfold fk_ok; simpl; constructor | reflexivity | reflexivity
    | reflexivity |].
  split; [exact Hr|]. split; [exact Hs|exact Hl].
Defined.

(** ** Room isolation *)

Lemma Forall_deliver (P : string -> Prop) (ev : Event) (l : list string) :
  (forall sid, sid ∈ l -> P sid) ->
  Forall (fun d => P (recipient d)) (deliver ev l).
Proof.
  intros H. unfold deliver. apply Forall_fmap, Forall_forall.
  intros sid Hin. simpl. now apply H.
Qed.

(** X4: No handler sends anything outside the room it was asked about: every
    delivery made by [join-package], [leave-package],
    [toggle-checklist-item], [update-status] or [emitToPackage] for a package
    goes to the calling connection or to a connection that was in that
    package's room, so a connection that sits only in other rooms receives
    nothing. *)
Theorem deliveries_stay_in_the_room (packageId : string)
    (client : AuthenticatedSocket) (w : World) :
  let inside := fun w' : World =>
    Forall (fun d => recipient d = socket_id client
                     \/ recipient d
                        ∈ members (PermitWebSocketGateway.room_of packageId) w)
      (emitted_since w w') in
  inside (snd (PermitWebSocketGateway.handleJoinPackage packageId client w))
  /\ inside (snd (PermitWebSocketGateway.handleLeavePackage packageId client w))
  /\ (forall (itemId : string) (c : bool),
        inside (snd (PermitWebSocketGateway.handleToggleChecklistItem
                       packageId itemId c client w)))
  /\ (forall (accepts : string -> option PackageStatus) (status : string)
             (note : option string),
        inside (snd (PermitWebSocketGateway.handleUpdateStatus accepts packageId
                       status note client w)))
  /\ (forall ev : Event,
        inside (snd (PermitWebSocketGateway.emitToPackage packageId ev w))).
Proof.
  cbv zeta.
  set (P := fun sid : string =>
              sid = socket_id client
              \/ sid ∈ members (PermitWebSocketGateway.room_of packageId) w).
  assert (Hroom : forall ev, Forall (fun d => P (recipient d))
                    (deliver ev
                       (elements
                          (members (PermitWebSocketGateway.room_of packageId) w)))).
  { intros ev. apply Forall_deliver. intros sid Hin. right.
    now apply elem_of_elements in Hin. }
  assert (Hothers : forall ev, Forall (fun d => P (recipient d))
                      (deliver ev
                         (elements
                            (members (PermitWebSocketGateway.room_of packageId) w
                             ∖ {[socket_id client]})))).
  { intros ev. apply Forall_deliver. intros sid Hin. right.
    apply elem_of_elements, elem_of_difference in Hin. tauto. }
  assert (Hself : forall ev,
            Forall (fun d => P (recipient d)) [mkDelivery (socket_id client) ev]).
  { intros ev. constructor; [now left|constructor]. }
  repeat split.
  - rewrite handleJoinPackage_effect.
    destruct (List.find _ _); cbv zeta.
    + rewrite join_then_others.
      erewrite emitted_since_app; [|simpl; now rewrite <- app_assoc].
      apply Forall_app. split; [apply Hself|apply Hothers].
    + erewrite emitted_since_app; [|reflexivity]. apply Hself.
  - rewrite handleLeavePackage_effect. cbv zeta. rewrite difference_twice.
    erewrite emitted_since_app; [|simpl; now rewrite <- app_assoc].
    apply Forall_app. split; [apply Hself|apply Hothers].
  - intros itemId c.
    pose proof (handleToggleChecklistItem_effect packageId itemId c client w)
      as H.
    destruct (PermitWebSocketGateway.handleToggleChecklistItem _ _ _ _ _)
      as [r w'].
    destruct H as (_ & _ & H). simpl.
    destruct (negb (fault_at 0 w) && existsb _ _);
      destruct H as [-> _]; [apply Hroom|apply Hself].
  - intros accepts status note.
    pose proof (handleUpdateStatus_effect accepts packageId status note client
                  w) as H.
    destruct (PermitWebSocketGateway.handleUpdateStatus _ _ _ _ _ _) as [r w'].
    destruct H as (_ & _ & H). simpl.
    destruct (accepts status);
      [|destruct H as [-> _]; apply Hself].
    destruct (negb (fault_at 0 w) && package_exists packageId (db w));
      [|destruct H as [-> _]; apply Hself].
    destruct H as [_ H].
    destruct (negb (fault_at 1 w) && fresh_log_id w);
      destruct H as [-> _]; [apply Hroom|apply Hself].
  - intros ev.
    change (Forall (fun d => P (recipient d))
              (emitted_since w
                 (snd (server_to_emit
                         (PermitWebSocketGateway.room_of packageId) ev w)))).
    rewrite broadcast_recipients. apply Hroom.
Qed.
